(** * chat-fe: provider adaptation, catalog fetch and conversation control

    A shallow embedding of the logic of the chat client (the [Settings]
    and [Chat] components and the helpers they call) together with the
    properties of its specification.

    Conventions of the embedding.
    - A JavaScript string is a [string]: a sequence of code units below
      256.  [toLowerCase] is exact on that range.
    - [T | undefined] is [option T]; a value the source leaves at type
      [any] (a decoded response body) is a [json] tree, and a property
      read that may be absent yields [option json].
    - Numbers are binary64 values ([float], the primitive floats of the
      kernel, with their IEEE operations); epoch milliseconds, which
      are integers, are [Z].
    - React state is passed explicitly; every handler sees the state of
      the render it was created in. *)

From Stdlib Require Import ZArith Floats Bool List String Ascii Lia.
From Stdlib Require Import DecimalString Sorted Permutation.
Import ListNotations.

Set Warnings "-register-all".
Local Open Scope string_scope.
Local Open Scope list_scope.

(* ================================================================= *)
(** ** Strings as the source uses them *)

Module JsString.

(** [c.toLowerCase()] on one code unit below 256: the letters A-Z and
    the Latin-1 capitals U+00C0-U+00DE (U+00D7, the multiplication
    sign, apart) move up by 32; everything else is unchanged. *)
Definition lowerUnit (c : ascii) : ascii :=
  let n := nat_of_ascii c in
  if ((65 <=? n) && (n <=? 90))%nat then ascii_of_nat (n + 32)
  else if ((192 <=? n) && (n <=? 222) && negb (n =? 215))%nat
       then ascii_of_nat (n + 32)
       else c.

Fixpoint toLowerCase (s : string) : string :=
  match s with
  | EmptyString => EmptyString
  | String c s' => String (lowerUnit c) (toLowerCase s')
  end.

(** [s.startsWith(p)] *)
Fixpoint startsWith (s p : string) {struct p} : bool :=
  match p, s with
  | EmptyString, _ => true
  | String a p', String b s' => Ascii.eqb a b && startsWith s' p'
  | String _ _, EmptyString => false
  end.

(** [s.includes(needle)]: [needle] occurs at some position of [s]. *)
Fixpoint includes (s needle : string) : bool :=
  startsWith s needle ||
  match s with
  | EmptyString => false
  | String _ s' => includes s' needle
  end.

(** JavaScript truthiness of a string: non-empty. *)
Definition nonEmpty (s : string) : bool :=
  match s with EmptyString => false | String _ _ => true end.

(** [s.slice(0, n)] for [0 <= n]. *)
Definition slice0 (n : nat) (s : string) : string := substring 0 n s.

(** [String(n)] for an integer. *)
Definition ofInt (z : Z) : string := NilEmpty.string_of_int (Z.to_int z).

End JsString.
Import JsString.

(* ================================================================= *)
(** ** Configuration and the capability detector *)

Inductive Provider := openai | lmstudio | gpt4all | ollama.

Inductive Effort := low | medium | high.

Definition effortText (e : Effort) : string :=
  match e with low => "low" | medium => "medium" | high => "high" end.

Record ApiConfig := mkApiConfig {
  endpoint : string;
  apiKey : string;
  provider : Provider;
  model : option string;
  reasoningEffort : option Effort
}.

Definition Provider_eqb (a b : Provider) : bool :=
  match a, b with
  | openai, openai | lmstudio, lmstudio | gpt4all, gpt4all | ollama, ollama => true
  | _, _ => false
  end.

(** The keywords tested by [isReasoningModel], in source order. *)
Definition reasoningKeywords : list string :=
  ["o1"; "reasoning"; "gpt-oss"; "deepseek-r1"].

(** [isReasoningModel(modelName: string | undefined): boolean] *)
Definition isReasoningModel (modelName : option string) : bool :=
  match modelName with
  | None => false
  | Some name =>
      if negb (nonEmpty name) then false
      else
        let lowerName := toLowerCase name in
        includes lowerName "o1" ||
        includes lowerName "reasoning" ||
        includes lowerName "gpt-oss" ||
        includes lowerName "deepseek-r1"
  end.

(** [x || d] on an optional string: [d] when [x] is undefined or empty. *)
Definition orDefault (x : option string) (d : string) : string :=
  match x with
  | Some s => if nonEmpty s then s else d
  | None => d
  end.

(** [!config.model] *)
Definition modelUnset (m : option string) : bool :=
  match m with
  | Some s => negb (nonEmpty s)
  | None => true
  end.

(* ================================================================= *)
(** ** Decoded JSON and the JavaScript operations applied to it *)

Inductive json :=
| JNull
| JBool (b : bool)
| JNum (x : float)
| JStr (s : string)
| JArr (items : list json)
| JObj (fields : list (string * json)).

(** What a [try] block can raise. *)
Inductive Thrown :=
| ErrorObject (message : string)   (* [new Error(message)] *)
| Rejection (rendering : string)   (* a promise of the environment rejected;
                                      [rendering] is [String(e)] *)
| NullRead (key : string)          (* TypeError: property read on null *)
| NotCallable (key : string).      (* TypeError: call of a missing method *)

Inductive Result (A : Type) :=
| Ok (a : A)
| Throw (e : Thrown).
Arguments Ok {A} a.
Arguments Throw {A} e.

Definition bind {A B} (r : Result A) (k : A -> Result B) : Result B :=
  match r with
  | Ok a => k a
  | Throw e => Throw e
  end.

Notation "x <- r ;; k" := (bind r (fun x => k))
  (at level 61, r at next level, right associativity).

(** [String(e)] *)
Definition String_of (e : Thrown) : string :=
  match e with
  | ErrorObject m => ("Error: " ++ m)%string
  | Rejection r => r
  | NullRead k =>
      ("TypeError: Cannot read properties of null (reading '" ++ k ++ "')")%string
  | NotCallable k => ("TypeError: " ++ k ++ " is not a function")%string
  end.

Fixpoint assoc (k : string) (fields : list (string * json)) : option json :=
  match fields with
  | [] => None
  | (k', v) :: rest => if String.eqb k k' then Some v else assoc k rest
  end.

(** [v.k] for [v] not null and [k] one of the keys the source reads
    (none of them names a built-in property): only an object has it. *)
Definition prop (v : json) (k : string) : option json :=
  match v with
  | JObj fields => assoc k fields
  | _ => None
  end.

(** [v.k]: a TypeError on null. *)
Definition member (v : json) (k : string) : Result (option json) :=
  match v with
  | JNull => Throw (NullRead k)
  | _ => Ok (prop v k)
  end.

(** [x?.k]: undefined when [x] is undefined or null. *)
Definition optMember (x : option json) (k : string) : option json :=
  match x with
  | None | Some JNull => None
  | Some v => prop v k
  end.

(** [x?.[0]] *)
Definition optIndex0 (x : option json) : option json :=
  match x with
  | Some (JArr items) => nth_error items 0
  | Some (JStr (String c _)) => Some (JStr (String c EmptyString))
  | Some (JObj fields) => assoc "0" fields
  | _ => None
  end.

(** Truthiness of a value that may be undefined. *)
Definition truthy (x : option json) : bool :=
  match x with
  | None | Some JNull => false
  | Some (JBool b) => b
  | Some (JNum x) => negb ((x =? 0)%float || PrimFloat.is_nan x)
  | Some (JStr s) => nonEmpty s
  | Some (JArr _) | Some (JObj _) => true
  end.

(** [x || d] *)
Definition orElse (x : option json) (d : json) : json :=
  match x with
  | Some v => if truthy x then v else d
  | None => d
  end.

(** The value of [n / d] for a truthy [n] and a number [d]: the
    binary64 quotient when [n] is a number.  A numerator that is not a
    number is coerced by JavaScript first; the embedding keeps that
    case apart, unevaluated. *)
Inductive Rate :=
| Exact (x : float)
| Coerced (numerator : json) (denominator : float).

Definition divide (n : json) (d : float) : Rate :=
  match n with
  | JNum x => Exact (x / d)%float
  | _ => Coerced n d
  end.

(** The number that an integer is: exact below 2^53 in magnitude, which
    covers every value and every difference of two values of
    [Date.now()] but the most distant, and rounded to nearest up to
    2^63. *)
Definition numberOfZ (z : Z) : float :=
  if (z <? 0)%Z
  then (- PrimFloat.of_uint63 (Uint63.of_Z (- z)))%float
  else PrimFloat.of_uint63 (Uint63.of_Z z).

(* ================================================================= *)
(** ** The conversation: messages, sessions, the session store *)

Record Message := mkMessage {
  m_role : string;
  m_content : json;
  m_model : option string;
  m_provider : option Provider;
  m_reasoningEffort : option string;
  m_tokensPerSecond : option Rate;
  m_timestamp : option Z
}.

Record ChatSession := mkChatSession {
  id : string;
  title : json;
  cs_messages : list Message;
  createdAt : Z;
  updatedAt : Z
}.

(** The object store ["sessions"], keyed by [id]. *)
Definition Store := string -> option ChatSession.

Definition emptyStore : Store := fun _ => None.

(** [saveChatSession]: [objectStore.put(session)] replaces the record
    at [session.id]. *)
Definition saveChatSession (session : ChatSession) (db : Store) : Store :=
  fun k => if String.eqb k (id session) then Some session else db k.

(** [loadChatSession]: [req.result || null] *)
Definition loadChatSession (k : string) (db : Store) : option ChatSession :=
  db k.

(** [deleteChatSession] *)
Definition deleteChatSession (k : string) (db : Store) : Store :=
  fun k' => if String.eqb k' k then None else db k'.

(** [messages.find(m => m.role === 'user')?.content.slice(0, 50) || 'New Chat'] *)
Definition sessionTitle (messages : list Message) : Result json :=
  match find (fun m => String.eqb (m_role m) "user") messages with
  | None => Ok (JStr "New Chat")
  | Some m =>
      match m_content m with
      | JStr s =>
          let t := slice0 50 s in
          Ok (if nonEmpty t then JStr t else JStr "New Chat")
      | JArr items => Ok (JArr (firstn 50 items))
      | JNull => Throw (NullRead "slice")
      | _ => Throw (NotCallable "slice")
      end
  end.

(** The effect [useEffect(..., [messages, currentSessionId])] of [Chat]:
    nothing for an empty conversation, otherwise the session record it
    hands to [saveChatSession].  [now1] and [now2] are the two readings
    of [Date.now()]. *)
Definition sessionToSave (messages : list Message) (currentSessionId : string)
    (now1 now2 : Z) : Result (option ChatSession) :=
  match messages with
  | [] => Ok None
  | _ =>
      t <- sessionTitle messages ;;
      Ok (Some {| id := currentSessionId;
                  title := t;
                  cs_messages := messages;
                  createdAt := now1;
                  updatedAt := now2 |})
  end.

(** The store after the effect has run. *)
Definition persist (messages : list Message) (currentSessionId : string)
    (now1 now2 : Z) (db : Store) : Store :=
  match sessionToSave messages currentSessionId now1 now2 with
  | Ok (Some session) => saveChatSession session db
  | _ => db
  end.

(* ================================================================= *)
(** ** The conversation controller: [sendMessage] of [Chat] *)

(** One entry of the [messages] array of a request. *)
Record ApiMessage := mkApiMessage {
  am_role : string;
  am_content : json
}.

(** The object literal assigned to [requestBody]; a field that the
    literal does not contain is [None]. *)
Record RequestBody := mkRequestBody {
  rb_model : string;
  rb_messages : list ApiMessage;
  rb_stream : option bool;
  rb_think : option string;
  rb_reasoning_effort : option string
}.

(** A call [fetch(url, {method: "POST", headers, body})]. *)
Record HttpRequest := mkHttpRequest {
  rq_url : string;
  rq_authorization : option string;
  rq_body : RequestBody
}.

(** A response as [sendMessage] reads it: [res.ok], [res.status], and
    the outcomes of [await res.text()] and [await res.json()]. *)
Record HttpResponse := mkHttpResponse {
  res_ok : bool;
  res_status : Z;
  res_text : Result string;
  res_json : Result json
}.

(** The state of [Chat] that [sendMessage] reads and writes. *)
Record ChatState := mkChatState {
  messages : list Message;
  input : string;
  loading : bool
}.

Definition setInput (v : string) (st : ChatState) : ChatState :=
  {| messages := messages st; input := v; loading := loading st |}.

Definition setLoading (b : bool) (st : ChatState) : ChatState :=
  {| messages := messages st; input := input st; loading := b |}.

(** [setMessages(prev => [...prev, m])] *)
Definition appendMessage (m : Message) (st : ChatState) : ChatState :=
  {| messages := messages st ++ [m]; input := input st; loading := loading st |}.

Section Chat.

(** The props of the component and [t('error')]. *)
Variable config : ApiConfig.
Variable systemPrompt : string.
Variable t_error : string.

Definition chatEndpoint : string :=
  match provider config with
  | ollama => (endpoint config ++ "/api/chat")%string
  | gpt4all => "/api/gpt4all/v1/chat/completions"
  | _ => (endpoint config ++ "/v1/chat/completions")%string
  end.

(** [apiMessages], from the [messages] of the render and the input. *)
Definition apiMessages (prior : list Message) (userInput : string)
    : list ApiMessage :=
  (if nonEmpty systemPrompt
   then [ {| am_role := "system"; am_content := JStr systemPrompt |} ]
   else []) ++
  map (fun m => {| am_role := m_role m; am_content := m_content m |}) prior ++
  [ {| am_role := "user"; am_content := JStr userInput |} ].

Definition shouldUseReasoning : bool := isReasoningModel (model config).

(** [shouldUseReasoning && config.reasoningEffort ? config.reasoningEffort : undefined] *)
Definition effortInUse : option string :=
  match shouldUseReasoning, reasoningEffort config with
  | true, Some e => Some (effortText e)
  | _, _ => None
  end.

Definition requestBody (prior : list Message) (userInput : string)
    : RequestBody :=
  match provider config with
  | ollama =>
      {| rb_model := orDefault (model config) "llama2";
         rb_messages := apiMessages prior userInput;
         rb_stream := Some false;
         rb_think := effortInUse;
         rb_reasoning_effort := None |}
  | gpt4all =>
      {| rb_model := orDefault (model config) "gpt-3.5-turbo";
         rb_messages := apiMessages prior userInput;
         rb_stream := None;
         rb_think := None;
         rb_reasoning_effort := None |}
  | _ =>
      {| rb_model := orDefault (model config) "gpt-3.5-turbo";
         rb_messages := apiMessages prior userInput;
         rb_stream := None;
         rb_think := None;
         rb_reasoning_effort := effortInUse |}
  end.

Definition chatRequest (prior : list Message) (userInput : string)
    : HttpRequest :=
  {| rq_url := chatEndpoint;
     rq_authorization :=
       if nonEmpty (apiKey config)
       then Some ("Bearer " ++ apiKey config)%string
       else None;
     rq_body := requestBody prior userInput |}.

(** [sendMessage] up to its [await fetch(...)]: the state it leaves
    and the request it issues, if any.  [now] is the [Date.now()] of
    the user message. *)
Definition sendMessage_submit (now : Z) (st : ChatState)
    : ChatState * option HttpRequest :=
  if negb (nonEmpty (input st)) || loading st then (st, None)
  else
    let userInput := input st in
    let userMessage :=
      {| m_role := "user"; m_content := JStr userInput;
         m_model := None; m_provider := None; m_reasoningEffort := None;
         m_tokensPerSecond := None; m_timestamp := Some now |} in
    (appendMessage userMessage (setLoading true (setInput "" st)),
     Some (chatRequest (messages st) userInput)).

Definition usedModel : string :=
  orDefault (model config)
    (match provider config with ollama => "llama2" | _ => "gpt-3.5-turbo" end).

(** [(endTime - startTime) / 1000] *)
Definition elapsedSeconds (startTime endTime : Z) : float :=
  (numberOfZ (endTime - startTime) / 1000)%float.

(** The text shown for the reply. *)
Definition aiMsg (data : json) : Result json :=
  match provider config with
  | ollama =>
      message <- member data "message" ;;
      Ok (orElse (optMember message "content") (JStr "(no response)"))
  | _ =>
      choices <- member data "choices" ;;
      Ok (orElse
            (optMember (optMember (optIndex0 choices) "message") "content")
            (JStr "(no response)"))
  end.

Definition totalTokens (data : json) : Result (option json) :=
  match provider config with
  | ollama => member data "eval_count"
  | _ =>
      usage <- member data "usage" ;;
      Ok (optMember usage "total_tokens")
  end.

(** [totalTokens && elapsedSeconds > 0 ? totalTokens / elapsedSeconds : undefined] *)
Definition tokensPerSecond (total : option json) (elapsed : float) : option Rate :=
  match total with
  | Some n =>
      if truthy total && (0 <? elapsed)%float
      then Some (divide n elapsed)
      else None
  | None => None
  end.

(** The [try] block from the resolution of [fetch] on: the assistant
    message it builds, or what it throws. *)
Definition receive (startTime endTime : Z) (outcome : Result HttpResponse)
    : Result Message :=
  res <- outcome ;;
  let elapsed := elapsedSeconds startTime endTime in
  if negb (res_ok res) then
    errorText <- res_text res ;;
    Throw (ErrorObject
             ("HTTP " ++ ofInt (res_status res) ++ ": " ++ errorText)%string)
  else
    data <- res_json res ;;
    content <- aiMsg data ;;
    total <- totalTokens data ;;
    Ok {| m_role := "assistant";
          m_content := content;
          m_model := Some usedModel;
          m_provider := Some (provider config);
          m_reasoningEffort := effortInUse;
          m_tokensPerSecond := tokensPerSecond total elapsed;
          m_timestamp := Some endTime |}.

(** The message of the [catch] block; [now] is its [Date.now()]. *)
Definition errorMessage (e : Thrown) (now : Z) : Message :=
  {| m_role := "assistant";
     m_content := JStr (t_error ++ String_of e)%string;
     m_model := Some usedModel;
     m_provider := Some (provider config);
     m_reasoningEffort := None;
     m_tokensPerSecond := None;
     m_timestamp := Some now |}.

(** [sendMessage] from the resolution of [fetch] to its end, on the
    state current at that moment.  [endTime] is the [Date.now()] after
    [fetch], [catchTime] the one of the [catch] block. *)
Definition sendMessage_settle (startTime endTime catchTime : Z)
    (outcome : Result HttpResponse) (st : ChatState) : ChatState :=
  let st' :=
    match receive startTime endTime outcome with
    | Ok m => appendMessage m st
    | Throw e => appendMessage (errorMessage e catchTime) st
    end in
  setLoading false st'.

End Chat.

(* ================================================================= *)
(** ** The controller under a sequence of events *)

(** What happens to [Chat] between renders: the user submits, the user
    edits the input, or the pending [fetch] settles. *)
Inductive ChatEvent :=
| Submitted (now : Z)
| Typed (text : string)
| Settled (startTime endTime catchTime : Z) (outcome : Result HttpResponse).

(** The state together with the requests issued and not yet settled. *)
Record Controller := mkController {
  chat : ChatState;
  inFlight : list HttpRequest
}.

Definition initialController : Controller :=
  {| chat := {| messages := []; input := EmptyString; loading := false |};
     inFlight := [] |}.

Section Run.

Variable config : ApiConfig.
Variable systemPrompt : string.
Variable t_error : string.

Definition step (c : Controller) (ev : ChatEvent) : Controller :=
  match ev with
  | Submitted now =>
      let r := sendMessage_submit config systemPrompt now (chat c) in
      {| chat := fst r;
         inFlight := inFlight c ++
                     match snd r with Some rq => [rq] | None => [] end |}
  | Typed text =>
      {| chat := setInput text (chat c); inFlight := inFlight c |}
  | Settled startTime endTime catchTime outcome =>
      match inFlight c with
      | [] => c
      | _ :: rest =>
          {| chat := sendMessage_settle config t_error startTime endTime
                       catchTime outcome (chat c);
             inFlight := rest |}
      end
  end.

Definition run (events : list ChatEvent) : Controller :=
  fold_left step events initialController.

End Run.

(* ================================================================= *)
(** ** [JSON.stringify] on a decoded value *)

Section Stringify.

(** The text of a number ([Number::toString]); no property below
    depends on it. *)
Variable numberToString : float -> string.

Definition hexDigit (n : nat) : ascii :=
  if (n <? 10)%nat then ascii_of_nat (48 + n) else ascii_of_nat (87 + n).

(** One code unit inside a quoted JSON string. *)
Definition escapeUnit (c : ascii) : string :=
  let n := nat_of_ascii c in
  let one (x : ascii) := String "\" (String x EmptyString) in
  if (n =? 8)%nat then one "b"%char
  else if (n =? 9)%nat then one "t"%char
  else if (n =? 10)%nat then one "n"%char
  else if (n =? 12)%nat then one "f"%char
  else if (n =? 13)%nat then one "r"%char
  else if (n =? 34)%nat then one c
  else if (n =? 92)%nat then one c
  else if (n <? 32)%nat
       then ("\u00" ++ String (hexDigit (n / 16))
                         (String (hexDigit (n mod 16)) EmptyString))%string
       else String c EmptyString.

Fixpoint escapeUnits (s : string) : string :=
  match s with
  | EmptyString => EmptyString
  | String c s' => (escapeUnit c ++ escapeUnits s')%string
  end.

Definition quote (s : string) : string :=
  String "034" (escapeUnits s ++ String "034" EmptyString)%string.

Fixpoint stringify (j : json) : string :=
  match j with
  | JNull => "null"
  | JBool true => "true"
  | JBool false => "false"
  | JNum x => numberToString x
  | JStr s => quote s
  | JArr items =>
      ("[" ++ String.concat "," (map stringify items) ++ "]")%string
  | JObj fields =>
      ("{" ++ String.concat ","
                (map (fun kv => (quote (fst kv) ++ ":" ++ stringify (snd kv))%string)
                     fields)
           ++ "}")%string
  end.

End Stringify.

(* ================================================================= *)
(** ** The model catalog: the effect of [Settings] and its [fetchModels] *)

Record ModelInfo := mkModelInfo {
  mi_id : string;
  supportsReasoning : bool
}.

(** The decoded list response at the type the source annotates: the
    [name]s of [data.models] and the [id]s of [data.data], each absent
    or an array. *)
Record ListBody := mkListBody {
  lb_models : option (list string);
  lb_data : option (list string)
}.

(** The list response as [fetchModels] reads it.  A body outside
    [ListBody] makes the read throw; [lr_json] carries that as a
    [Throw]. *)
Record ListResponse := mkListResponse {
  lr_ok : bool;
  lr_status : Z;
  lr_statusText : string;
  lr_text : Result string;
  lr_json : Result ListBody
}.

(** The response of one [/api/ollama/api/show] lookup. *)
Record DetailResponse := mkDetailResponse {
  dr_ok : bool;
  dr_json : Result json
}.

Record SettingsState := mkSettingsState {
  availableModels : list ModelInfo;
  loadingModels : bool;
  modelsError : string
}.

Definition setAvailableModels (l : list ModelInfo) (st : SettingsState) :=
  {| availableModels := l; loadingModels := loadingModels st;
     modelsError := modelsError st |}.

Definition setLoadingModels (b : bool) (st : SettingsState) :=
  {| availableModels := availableModels st; loadingModels := b;
     modelsError := modelsError st |}.

Definition setModelsError (e : string) (st : SettingsState) :=
  {| availableModels := availableModels st; loadingModels := loadingModels st;
     modelsError := e |}.

(** [l.map((x, i) => f i x)], counting from [i]. *)
Fixpoint mapi_from {A B} (f : nat -> A -> B) (i : nat) (l : list A) : list B :=
  match l with
  | [] => []
  | x :: rest => f i x :: mapi_from f (S i) rest
  end.

Section Settings.

Variable numberToString : float -> string.
Variable config : ApiConfig.

Definition catalogEndpoint : string :=
  match provider config with
  | ollama => (endpoint config ++ "/api/tags")%string
  | gpt4all => "/api/gpt4all/v1/models"
  | _ => (endpoint config ++ "/v1/models")%string
  end.

(** The body of [if (detailRes.ok) { ... }] up to [supportsReasoning]. *)
Definition detailSupportsReasoning (name : string) (detail : json)
    : Result bool :=
  mf <- member detail "modelfile" ;;
  modelfile <-
    match mf with
    | None | Some JNull => Ok EmptyString
    | Some (JStr s) =>
        let l := toLowerCase s in Ok (if nonEmpty l then l else EmptyString)
    | Some _ => Throw (NotCallable "detail.modelfile?.toLowerCase")
    end ;;
  let parameters :=
    toLowerCase
      (stringify numberToString (orElse (prop detail "parameters") (JObj []))) in
  Ok (includes modelfile "reasoning" ||
      includes parameters "reasoning" ||
      isReasoningModel (Some name)).

(** The [async (name) => ...] passed to [modelNames.map]: it settles
    with a [ModelInfo] whatever the lookup does. *)
Definition modelInfoOf (name : string) (outcome : Result DetailResponse)
    : ModelInfo :=
  let attempt : Result (option ModelInfo) :=
    detailRes <- outcome ;;
    if dr_ok detailRes then
      detail <- dr_json detailRes ;;
      b <- detailSupportsReasoning name detail ;;
      Ok (Some {| mi_id := name; supportsReasoning := b |})
    else Ok None in
  match attempt with
  | Ok (Some info) => info
  | _ => {| mi_id := name; supportsReasoning := isReasoningModel (Some name) |}
  end.

(** The [try] block of [fetchModels] up to [modelInfos].  [detailOf i]
    is the outcome of the lookup issued for the [i]-th name. *)
Definition modelInfos (listing : Result ListResponse)
    (detailOf : nat -> Result DetailResponse) : Result (list ModelInfo) :=
  res <- listing ;;
  if negb (lr_ok res) then
    errorText <- lr_text res ;;
    Throw (ErrorObject
             ("HTTP " ++ ofInt (lr_status res) ++ ": " ++
              (if nonEmpty errorText then errorText else lr_statusText res))%string)
  else
    data <- lr_json res ;;
    match provider config with
    | ollama =>
        let modelNames :=
          match lb_models data with Some l => l | None => [] end in
        Ok (mapi_from (fun i name => modelInfoOf name (detailOf i)) 0 modelNames)
    | _ =>
        let modelIds :=
          match lb_data data with Some l => l | None => [] end in
        Ok (map (fun i => {| mi_id := i;
                             supportsReasoning := isReasoningModel (Some i) |})
                modelIds)
    end.

(** [modelIds.includes(config.model)] *)
Definition listsModel (modelIds : list string) (m : option string) : bool :=
  match m with
  | Some s => existsb (String.eqb s) modelIds
  | None => false
  end.

(** The argument of the [setConfig] call that follows
    [setAvailableModels(modelInfos)], if the call is made. *)
Definition selectModel (infos : list ModelInfo) : option ApiConfig :=
  let modelIds := map mi_id infos in
  match infos with
  | first :: _ =>
      if modelUnset (model config) || negb (listsModel modelIds (model config))
      then Some {| endpoint := endpoint config;
                   apiKey := apiKey config;
                   provider := provider config;
                   model := Some (mi_id first);
                   reasoningEffort := reasoningEffort config |}
      else None
  | [] => None
  end.

(** [fetchModels]: the state it leaves and its [setConfig] call. *)
Definition fetchModels (listing : Result ListResponse)
    (detailOf : nat -> Result DetailResponse) (st : SettingsState)
    : SettingsState * option ApiConfig :=
  let st1 := setModelsError "" (setLoadingModels true st) in
  match modelInfos listing detailOf with
  | Ok infos =>
      (setLoadingModels false (setAvailableModels infos st1),
       selectModel infos)
  | Throw e =>
      (setLoadingModels false
         (setAvailableModels [] (setModelsError (String_of e) st1)),
       None)
  end.

(** The configuration after the fetch. *)
Definition configAfter (r : SettingsState * option ApiConfig) : ApiConfig :=
  match snd r with
  | Some c => c
  | None => config
  end.

(** The effect on [config.provider], [config.endpoint], [config.apiKey]. *)
Definition catalogEffect (listing : Result ListResponse)
    (detailOf : nat -> Result DetailResponse) (st : SettingsState)
    : SettingsState * option ApiConfig :=
  if negb (nonEmpty (endpoint config)) then (st, None)
  else if Provider_eqb (provider config) openai && negb (nonEmpty (apiKey config))
       then (setAvailableModels [] st, None)
       else fetchModels listing detailOf st.

End Settings.

(* ================================================================= *)
(** ** The object store as a sequence of records *)

(** The records of the object store ["sessions"] in key order, as
    [getAll()] returns them.  Keys are compared as IndexedDB compares
    strings, code unit by code unit. *)
Definition SessionDb := list ChatSession.

(** [objectStore.put(session)]: the record takes the place of the one
    with its key, or its place in key order. *)
Fixpoint putRecord (session : ChatSession) (db : SessionDb) : SessionDb :=
  match db with
  | [] => [session]
  | x :: rest =>
      match String.compare (id session) (id x) with
      | Eq => session :: rest
      | Lt => session :: x :: rest
      | Gt => x :: putRecord session rest
      end
  end.

(** [objectStore.get(id)] *)
Definition getRecord (k : string) (db : SessionDb) : option ChatSession :=
  find (fun x => String.eqb (id x) k) db.

(** [objectStore.delete(id)] *)
Definition deleteRecord (k : string) (db : SessionDb) : SessionDb :=
  filter (fun x => negb (String.eqb (id x) k)) db.

(** The store as a map from keys, the view [saveChatSession],
    [loadChatSession] and [deleteChatSession] are stated on. *)
Definition storeOf (db : SessionDb) : Store := fun k => getRecord k db.

(** One step of [sessions.sort((a, b) => b.updatedAt - a.updatedAt)]:
    [x], which precedes every element of [l] in the array, goes before
    the first element that is not more recent than it. *)
Fixpoint insertByRecency (x : ChatSession) (l : list ChatSession)
    : list ChatSession :=
  match l with
  | [] => [x]
  | y :: rest =>
      if (updatedAt y <=? updatedAt x)%Z then x :: l
      else y :: insertByRecency x rest
  end.

(** [loadAllChatSessions]: [getAll()] sorted by [updatedAt], most recent
    first.  [Array.prototype.sort] is stable, which fixes its result:
    records of equal [updatedAt] keep their key order. *)
Definition loadAllChatSessions (db : SessionDb) : list ChatSession :=
  fold_right insertByRecency [] db.

(* ================================================================= *)
(** ** [Chat]: the session shown and the handlers of the sidebar *)

(** The state of [Chat] that the session handlers read and write. *)
Record ChatView := mkChatView {
  cv_chat : ChatState;
  cv_currentSessionId : string;
  cv_chatSessions : list ChatSession
}.

(** [setMessages(ms)] *)
Definition setMessages (ms : list Message) (st : ChatState) : ChatState :=
  {| messages := ms; input := input st; loading := loading st |}.

(** [`session-${Date.now()}`] *)
Definition newSessionId (now : Z) : string := ("session-" ++ ofInt now)%string.

(** The initial state of [Chat], mounted at time [now]. *)
Definition initialView (now : Z) : ChatView :=
  {| cv_chat := {| messages := []; input := EmptyString; loading := false |};
     cv_currentSessionId := newSessionId now;
     cv_chatSessions := [] |}.

(** [loadSession(sessionId)] *)
Definition loadSession (sessionId : string) (db : SessionDb) (v : ChatView)
    : ChatView :=
  match getRecord sessionId db with
  | Some session =>
      {| cv_chat := setMessages (cs_messages session) (cv_chat v);
         cv_currentSessionId := id session;
         cv_chatSessions := cv_chatSessions v |}
  | None => v
  end.

(** [createNewChat()] at time [now] *)
Definition createNewChat (now : Z) (v : ChatView) : ChatView :=
  {| cv_chat := setMessages [] (cv_chat v);
     cv_currentSessionId := newSessionId now;
     cv_chatSessions := cv_chatSessions v |}.


(** The effect on [messages] and [currentSessionId], with the store and
    the listing it refreshes once the record is written. *)
Definition saveEffect (now1 now2 : Z) (db : SessionDb) (v : ChatView)
    : Result (SessionDb * ChatView) :=
  saved <- sessionToSave (messages (cv_chat v)) (cv_currentSessionId v)
             now1 now2 ;;
  match saved with
  | None => Ok (db, v)
  | Some session =>
      let db' := putRecord session db in
      Ok (db', {| cv_chat := cv_chat v;
                  cv_currentSessionId := cv_currentSessionId v;
                  cv_chatSessions := loadAllChatSessions db' |})
  end.

(* ================================================================= *)
(** ** [ChatSidebar]: the confirmation of a deletion *)

(** The state [deleteTargetId] and, for the record, the calls of
    [onDeleteSession] made so far, oldest first. *)
Record Sidebar := mkSidebar {
  deleteTargetId : option string;
  deleteCalls : list string
}.

Definition initialSidebar : Sidebar :=
  {| deleteTargetId := None; deleteCalls := [] |}.

Definition handleDeleteClick (sessionId : string) (s : Sidebar) : Sidebar :=
  {| deleteTargetId := Some sessionId; deleteCalls := deleteCalls s |}.

(** [if (deleteTargetId) { onDeleteSession(deleteTargetId); setDeleteTargetId(null); }] *)
Definition handleConfirmDelete (s : Sidebar) : Sidebar :=
  match deleteTargetId s with
  | Some target =>
      if nonEmpty target
      then {| deleteTargetId := None; deleteCalls := deleteCalls s ++ [target] |}
      else s
  | None => s
  end.

Definition handleCancelDelete (s : Sidebar) : Sidebar :=
  {| deleteTargetId := None; deleteCalls := deleteCalls s |}.

(** [isOpen={deleteTargetId !== null}] *)
Definition modalOpen (s : Sidebar) : bool :=
  match deleteTargetId s with Some _ => true | None => false end.

Inductive SidebarEvent :=
| DeleteClick (sessionId : string)
| ConfirmDelete
| CancelDelete.

Definition sidebarStep (s : Sidebar) (ev : SidebarEvent) : Sidebar :=
  match ev with
  | DeleteClick sessionId => handleDeleteClick sessionId s
  | ConfirmDelete => handleConfirmDelete s
  | CancelDelete => handleCancelDelete s
  end.

Definition sidebarRun (events : list SidebarEvent) : Sidebar :=
  fold_left sidebarStep events initialSidebar.

(* ================================================================= *)
(** ** The heading of a message *)

Definition providerNames (p : Provider) : string :=
  match p with
  | openai => "OpenAI"
  | lmstudio => "LM Studio"
  | gpt4all => "GPT4ALL"
  | ollama => "Ollama"
  end.

(** [(m.provider ? providerNames[m.provider] : null)
     ?? providerNames[config.provider] ?? config.provider] *)
Definition msgProviderName (config : ApiConfig) (m : Message) : string :=
  match m_provider m with
  | Some p => providerNames p
  | None => providerNames (provider config)
  end.

(** The text of the heading; [t_you] and [t_ai] are [t('you')] and
    [t('ai')]. *)
Definition messageHeading (t_you t_ai : string) (config : ApiConfig)
    (m : Message) : string :=
  if String.eqb (m_role m) "user" then t_you
  else
    (t_ai ++
     match m_model m with
     | Some mdl =>
         if nonEmpty mdl
         then " (" ++ msgProviderName config m ++ ": " ++ mdl ++
              match m_reasoningEffort m with
              | Some e => if nonEmpty e then "/" ++ e else EmptyString
              | None => EmptyString
              end ++ ")"
         else EmptyString
     | None => EmptyString
     end)%string.

(* ================================================================= *)
(** ** [Settings]: the form *)

Definition defaultEndpoints (p : Provider) : string :=
  match p with
  | openai => "https://api.openai.com"
  | lmstudio => "http://localhost:1234"
  | gpt4all => "http://localhost:4891"
  | ollama => "http://localhost:11434"
  end.

(** The [setConfig] of the provider selector. *)
Definition changeProvider (config : ApiConfig) (newProvider : Provider)
    : ApiConfig :=
  {| endpoint := defaultEndpoints newProvider;
     apiKey := apiKey config;
     provider := newProvider;
     model := None;
     reasoningEffort := reasoningEffort config |}.

(** [availableModels.find(m => m.id === config.model)?.supportsReasoning]:
    the effort selector is drawn. *)
Definition effortSelectable (models : list ModelInfo) (m : option string) : bool :=
  match m with
  | Some s =>
      match find (fun i => String.eqb (mi_id i) s) models with
      | Some i => supportsReasoning i
      | None => false
      end
  | None => false
  end.

(* ================================================================= *)
(** ** Notions used to state the properties *)

(** What a failed send throws: the rejection of [fetch], or, for a
    response that is not ok, the [Error] built from its status and text
    (the rejection of [res.text()] if reading the text fails). *)
Definition failureOf (outcome : Result HttpResponse) : Thrown :=
  match outcome with
  | Throw e => e
  | Ok res =>
      match res_text res with
      | Ok errorText =>
          ErrorObject ("HTTP " ++ ofInt (res_status res) ++ ": " ++ errorText)%string
      | Throw e => e
      end
  end.

(** The value [sendMessage] reads as the reply text, and the one it
    reads as [totalTokens], in a body that is not null. *)
Definition contentField (config : ApiConfig) (data : json) : option json :=
  match provider config with
  | ollama => optMember (prop data "message") "content"
  | _ => optMember (optMember (optIndex0 (prop data "choices")) "message") "content"
  end.

Definition tokenField (config : ApiConfig) (data : json) : option json :=
  match provider config with
  | ollama => prop data "eval_count"
  | _ => optMember (prop data "usage") "total_tokens"
  end.

(** [loading] tells whether a request is in flight, and there is never
    more than one. *)
Definition oneSendAtATime (c : Controller) : Prop :=
  (loading (chat c) = true /\ List.length (inFlight c) = 1%nat) \/
  (loading (chat c) = false /\ inFlight c = []).

(** A detail lookup that the catalog can use: the response is ok, its
    body decodes to a value that is not null, and [modelfile] is a
    string, null or absent.  The result is the modelfile text and the
    parameters text ([JSON.stringify(detail.parameters || {})]). *)
Definition usableDetail (numberToString : float -> string)
    (outcome : Result DetailResponse) : option (string * string) :=
  match outcome with
  | Ok detailRes =>
      if dr_ok detailRes then
        match dr_json detailRes with
        | Ok JNull => None
        | Ok detail =>
            let parameters :=
              stringify numberToString
                (orElse (prop detail "parameters") (JObj [])) in
            match prop detail "modelfile" with
            | None | Some JNull => Some (EmptyString, parameters)
            | Some (JStr s) => Some (s, parameters)
            | Some _ => None
            end
        | Throw _ => None
        end
      else None
  | Throw _ => None
  end.

(** Some message of role user with the given text, and a reply. *)
Definition userSays (text : string) (now : Z) : Message :=
  {| m_role := "user"; m_content := JStr text;
     m_model := None; m_provider := None; m_reasoningEffort := None;
     m_tokensPerSecond := None; m_timestamp := Some now |}.

Definition assistantSays (text : string) (now : Z) : Message :=
  {| m_role := "assistant"; m_content := JStr text;
     m_model := Some "llama3"; m_provider := Some ollama;
     m_reasoningEffort := None;
     m_tokensPerSecond := None; m_timestamp := Some now |}.

(** Inputs of the worked instances: a configuration for a local
    ollama, a conversation in which a send is pending, a reply that
    failed, the list and detail responses of a catalog of three models,
    and a rendering of numbers for bodies that contain none. *)
Definition sampleConfig : ApiConfig :=
  {| endpoint := "http://localhost:11434"; apiKey := EmptyString;
     provider := ollama; model := Some "deepseek-r1:8b";
     reasoningEffort := Some high |}.

Definition sampleBusy : ChatState :=
  {| messages := [userSays "hello" 1000]; input := "again"; loading := true |}.

Definition sampleFailure : Result HttpResponse :=
  Ok {| res_ok := false; res_status := 500;
        res_text := Ok "model not loaded"; res_json := Throw (Rejection "SyntaxError") |}.

Definition sampleReplyBody : json :=
  JObj [("message", JObj [("content", JStr "hi")]); ("eval_count", JNum 20)].

Definition sampleReply : HttpResponse :=
  {| res_ok := true; res_status := 200;
     res_text := Ok EmptyString; res_json := Ok sampleReplyBody |}.

Definition sampleNames : list string := ["llama3"; "deepseek-r1:8b"; "qwen3"].

Definition sampleListBody : ListBody :=
  {| lb_models := Some sampleNames; lb_data := None |}.

Definition sampleList : ListResponse :=
  {| lr_ok := true; lr_status := 200; lr_statusText := "OK";
     lr_text := Ok EmptyString; lr_json := Ok sampleListBody |}.

Definition sampleDetails (i : nat) : Result DetailResponse :=
  match i with
  | 0%nat => Throw (Rejection "TypeError: Failed to fetch")
  | 1%nat => Ok {| dr_ok := false; dr_json := Ok JNull |}
  | _ => Ok {| dr_ok := true;
               dr_json := Ok (JObj [("modelfile",
                                     JStr "FROM qwen3 SYSTEM Reasoning on")]) |}
  end.

Definition sampleSettings : SettingsState :=
  {| availableModels := []; loadingModels := false; modelsError := EmptyString |}.

Definition sampleSaved : ChatSession :=
  {| id := "session-1000"; title := JStr "hello";
     cs_messages := [userSays "hello" 1000];
     createdAt := 1000; updatedAt := 1000 |}.

Definition sampleSavedAgain : ChatSession :=
  {| id := "session-1000"; title := JStr "hello";
     cs_messages := [userSays "hello" 1000; assistantSays "hi" 5000];
     createdAt := 5000; updatedAt := 5000 |}.

Definition sampleOther : ChatSession :=
  {| id := "session-3000"; title := JStr "weather";
     cs_messages := [userSays "weather" 3000];
     createdAt := 3000; updatedAt := 3000 |}.

Definition sampleLmstudio : ApiConfig :=
  {| endpoint := "http://localhost:1234"; apiKey := EmptyString;
     provider := lmstudio; model := None; reasoningEffort := None |}.

Definition sampleIdsBody : ListBody :=
  {| lb_models := None; lb_data := Some ["gpt-oss-20b"; "llama3"] |}.

Definition sampleIdsList : ListResponse :=
  {| lr_ok := true; lr_status := 200; lr_statusText := "OK";
     lr_text := Ok EmptyString; lr_json := Ok sampleIdsBody |}.

Definition sampleEmptyReply : HttpResponse :=
  {| res_ok := true; res_status := 200; res_text := Ok EmptyString;
     res_json := Ok (JObj [("message", JObj [("content", JStr EmptyString)])]) |}.

Definition samplePlaceholder : Message :=
  {| m_role := "assistant"; m_content := JStr "(no response)";
     m_model := Some "deepseek-r1:8b"; m_provider := Some ollama;
     m_reasoningEffort := Some "high";
     m_tokensPerSecond := None; m_timestamp := Some 2000%Z |}.

Definition noNumberText : float -> string := fun _ => EmptyString.

(** The reasoning field of a request body, whichever name it has. *)
Definition sentEffort (body : RequestBody) : option string :=
  match rb_think body with
  | Some e => Some e
  | None => rb_reasoning_effort body
  end.

(** The roles of [n] completed exchanges. *)
Fixpoint exchanges (n : nat) : list string :=
  match n with
  | O => []
  | S n' => "user" :: "assistant" :: exchanges n'
  end.

(** The conversation is a sequence of completed exchanges, followed by
    the user's message while a send is pending. *)
Definition turnsAlternate (st : ChatState) : Prop :=
  exists n, map m_role (messages st) =
            exchanges n ++ (if loading st then ["user"] else []).

(** The conversation is empty or opens with a user message whose
    content is a non-empty text. *)
Definition opensWithUserText (ms : list Message) : Prop :=
  match ms with
  | [] => True
  | m :: _ =>
      m_role m = "user" /\
      exists text, m_content m = JStr text /\ text <> EmptyString
  end.

(** The keys of the store increase strictly along the sequence: no key
    occurs twice. *)
Definition keysIncreasing (db : SessionDb) : Prop :=
  Sorted.StronglySorted
    (fun a b => String.compare (id a) (id b) = Lt) db.

(** Most recent first. *)
Definition byRecency (l : list ChatSession) : Prop :=
  Sorted.StronglySorted (fun a b => (updatedAt b <= updatedAt a)%Z) l.

(** What a failed catalog fetch throws: the rejection of [fetch], or,
    for a list response that is not ok, the [Error] built from its
    status and its text, the status text standing in for an empty
    text. *)
Definition catalogFailureOf (listing : Result ListResponse) : Thrown :=
  match listing with
  | Throw e => e
  | Ok res =>
      match lr_text res with
      | Ok errorText =>
          ErrorObject
            ("HTTP " ++ ofInt (lr_status res) ++ ": " ++
             (if nonEmpty errorText then errorText else lr_statusText res))%string
      | Throw e => e
      end
  end.

(** An entry of the catalog never denies what the identifier shows. *)
Definition honoursIdentifier (info : ModelInfo) : Prop :=
  isReasoningModel (Some (mi_id info)) = true -> supportsReasoning info = true.

(** A code unit that lowercases to one of the letters a-z, and a word
    made of such units. *)
Definition lowersToLetter (c : ascii) : bool :=
  let n := nat_of_ascii (lowerUnit c) in ((97 <=? n) && (n <=? 122))%nat.

Fixpoint lettersOnly (s : string) : bool :=
  match s with
  | EmptyString => true
  | String c s' => lowersToLetter c && lettersOnly s'
  end.

(** The number of clicks on a delete button among the events. *)
Definition isDeleteClick (ev : SidebarEvent) : bool :=
  match ev with DeleteClick _ => true | _ => false end.

Definition deleteClicks (events : list SidebarEvent) : nat :=
  List.length (filter isDeleteClick events).

(** The text that follows the configured model in a heading. *)
Definition effortSuffix (e : option string) : string :=
  match e with
  | Some x => ("/" ++ x)%string
  | None => EmptyString
  end.

(* ================================================================= *)
(** * Properties *)

(** ** Substring search *)

Lemma startsWith_spec (s p : string) :
  startsWith s p = true <-> exists q, s = (p ++ q)%string.
Proof.
  revert s; induction p as [|a p IH]; intros s; simpl.
  - split; [intros _; now exists s | reflexivity].
  - destruct s as [|b s]; simpl.
    + split; [discriminate | intros [q H]; discriminate].
    + rewrite andb_true_iff, Ascii.eqb_eq, IH. split.
      * intros [-> [q ->]]. now exists q.
      * intros [q H]. injection H as -> ->. split; [reflexivity | now exists q].
Qed.

Lemma includes_spec (s needle : string) :
  includes s needle = true <->
  exists p q, s = (p ++ needle ++ q)%string.
Proof.
  induction s as [|c s IH].
  - cbn [includes]. rewrite orb_false_r, startsWith_spec. split.
    + intros [q H]. now exists EmptyString, q.
    + intros [p [q H]]. destruct p; simpl in H.
      * now exists q.
      * discriminate.
  - cbn [includes]. rewrite orb_true_iff, startsWith_spec, IH. split.
    + intros [[q H] | [p [q H]]].
      * now exists EmptyString, q.
      * exists (String c p), q. simpl. now rewrite H.
    + intros [p [q H]]. destruct p as [|c' p]; simpl in H.
      * left. now exists q.
      * right. injection H as _ H. now exists p, q.
Qed.

Lemma append_length (a b : string) :
  String.length (a ++ b) = (String.length a + String.length b)%nat.
Proof. induction a as [|c a IH]; simpl; [reflexivity | now rewrite IH]. Qed.

Lemma includes_empty_false (needle : string) :
  nonEmpty needle = true -> includes EmptyString needle = false.
Proof. destruct needle; [discriminate | reflexivity]. Qed.

(** ** C2: the capability detector *)

(** C2.  [isReasoningModel] answers true exactly when the lowercased
    identifier contains one of the keywords "o1", "reasoning", "gpt-oss",
    "deepseek-r1" as a substring; it answers false on an absent
    identifier; being a function into [bool] it is total and has no
    effect.  It is true on "O1-preview", "deepseek-r1:8b" and
    "gpt-oss-20b", false on "llama3" and on undefined. *)
Theorem isReasoningModel_keywords :
  (forall name : string,
      isReasoningModel (Some name) = true <->
      exists kw, In kw reasoningKeywords /\
                 exists p q, toLowerCase name = (p ++ kw ++ q)%string)
  /\ isReasoningModel None = false
  /\ isReasoningModel (Some "O1-preview") = true
  /\ isReasoningModel (Some "deepseek-r1:8b") = true
  /\ isReasoningModel (Some "gpt-oss-20b") = true
  /\ isReasoningModel (Some "llama3") = false.
Proof.
  split; [intros name | repeat split; reflexivity].
  unfold isReasoningModel, reasoningKeywords.
  destruct name as [|c name].
  - cbn [nonEmpty negb toLowerCase]. split; [discriminate|].
    intros [kw [Hin [p [q H]]]]. exfalso.
    assert (Hinc : includes EmptyString kw = true)
      by (apply includes_spec; now exists p, q).
    cbn [In] in Hin.
    destruct Hin as [<- | [<- | [<- | [<- | []]]]]; discriminate Hinc.
  - cbn [nonEmpty negb]. cbv zeta.
    rewrite !orb_true_iff, !includes_spec. split.
    + intros [[[H | H] | H] | H];
        [exists "o1" | exists "reasoning" | exists "gpt-oss" | exists "deepseek-r1"];
        (split; [cbn [In]; tauto | exact H]).
    + intros [kw [Hin H]]. cbn [In] in Hin.
      destruct Hin as [<- | [<- | [<- | [<- | []]]]]; tauto.
Qed.

(* ================================================================= *)
(** ** The request adapter *)

Lemma effortInUse_Some (config : ApiConfig) (e : string) :
  effortInUse config = Some e <->
  isReasoningModel (model config) = true /\
  option_map effortText (reasoningEffort config) = Some e.
Proof.
  unfold effortInUse, shouldUseReasoning.
  destruct (isReasoningModel (model config)), (reasoningEffort config); simpl;
    split; try discriminate; try tauto; intros [H1 H2]; discriminate.
Qed.

(** C1.  In the body built for a send, [think] carries the configured
    effort exactly when the provider is ollama, the selected model is
    reasoning-capable and an effort is set; [reasoning_effort] carries
    it exactly when the provider is openai or lmstudio under the same
    two conditions; for gpt4all neither field is present, whatever the
    model and the effort. *)
Theorem requestBody_reasoning_field
    (config : ApiConfig) (systemPrompt : string)
    (prior : list Message) (userInput : string) :
  let body := requestBody config systemPrompt prior userInput in
  let capableAndSet (e : string) :=
    isReasoningModel (model config) = true /\
    option_map effortText (reasoningEffort config) = Some e in
  match provider config with
  | ollama =>
      (forall e, rb_think body = Some e <-> capableAndSet e) /\
      rb_reasoning_effort body = None
  | openai | lmstudio =>
      (forall e, rb_reasoning_effort body = Some e <-> capableAndSet e) /\
      rb_think body = None
  | gpt4all =>
      rb_think body = None /\ rb_reasoning_effort body = None
  end.
Proof.
  unfold requestBody.
  destruct (provider config); cbn;
    (split; [intros e; apply effortInUse_Some | reflexivity]) ||
    (split; reflexivity).
Qed.

Lemma requestBody_messages
    (config : ApiConfig) (systemPrompt : string)
    (prior : list Message) (userInput : string) :
  rb_messages (requestBody config systemPrompt prior userInput) =
  apiMessages systemPrompt prior userInput.
Proof. unfold requestBody. now destruct (provider config). Qed.

(** C5.  The message list of the request body is: the system message
    when and only when the system prompt is non-empty, then every prior
    message reduced to its role and content, in order, then the new user
    message.  Nothing is dropped: the list is as long as the prior
    sequence plus the one or two added entries, and the prior message at
    index [i] sits at index [i] shifted by the system entry. *)
Theorem requestBody_message_list
    (config : ApiConfig) (systemPrompt : string)
    (prior : list Message) (userInput : string) :
  let sent := rb_messages (requestBody config systemPrompt prior userInput) in
  let system :=
    if nonEmpty systemPrompt
    then [ {| am_role := "system"; am_content := JStr systemPrompt |} ]
    else [] in
  sent = system
         ++ map (fun m => {| am_role := m_role m; am_content := m_content m |}) prior
         ++ [ {| am_role := "user"; am_content := JStr userInput |} ]
  /\ (system = [] <-> systemPrompt = EmptyString)
  /\ List.length sent = (List.length system + List.length prior + 1)%nat
  /\ (forall i m, nth_error prior i = Some m ->
        nth_error sent (List.length system + i) =
        Some {| am_role := m_role m; am_content := m_content m |})
  /\ nth_error sent (List.length system + List.length prior) =
     Some {| am_role := "user"; am_content := JStr userInput |}.
Proof.
  cbv zeta. rewrite requestBody_messages. unfold apiMessages.
  set (system := if nonEmpty systemPrompt then _ else _).
  set (reduce := fun m => _).
  split; [reflexivity|]. split.
  - subst system. destruct systemPrompt; simpl; split; congruence.
  - split; [|split].
    + rewrite !List.length_app, List.length_map. simpl. lia.
    + intros i m Hi.
      rewrite nth_error_app2 by lia.
      replace (List.length system + i - List.length system)%nat with i by lia.
      rewrite nth_error_app1
        by (rewrite List.length_map; apply nth_error_Some; congruence).
      now rewrite nth_error_map, Hi.
    + rewrite nth_error_app2 by lia.
      replace (List.length system + List.length prior - List.length system)%nat
        with (List.length prior) by lia.
      rewrite nth_error_app2 by (rewrite List.length_map; lia).
      rewrite List.length_map, Nat.sub_diag. reflexivity.
Qed.

(* ================================================================= *)
(** ** The conversation controller *)

Lemma nonEmpty_false (s : string) : nonEmpty s = false <-> s = EmptyString.
Proof. destruct s; simpl; split; congruence. Qed.

Lemma sendMessage_submit_idle
    (config : ApiConfig) (systemPrompt : string) (now : Z) (st : ChatState) :
  loading st = false -> input st <> EmptyString ->
  sendMessage_submit config systemPrompt now st =
  ({| messages :=
        messages st ++
        [ {| m_role := "user"; m_content := JStr (input st);
             m_model := None; m_provider := None; m_reasoningEffort := None;
             m_tokensPerSecond := None; m_timestamp := Some now |} ];
      input := EmptyString;
      loading := true |},
   Some (chatRequest config systemPrompt (messages st) (input st))).
Proof.
  intros Hl Hi. unfold sendMessage_submit. rewrite Hl.
  destruct (input st) eqn:E; [congruence | reflexivity].
Qed.

Lemma sendMessage_submit_blocked
    (config : ApiConfig) (systemPrompt : string) (now : Z) (st : ChatState) :
  loading st = true \/ input st = EmptyString ->
  sendMessage_submit config systemPrompt now st = (st, None).
Proof.
  unfold sendMessage_submit. intros [H | H]; rewrite H.
  - now rewrite orb_true_r.
  - reflexivity.
Qed.

(** C3.  While a send is in progress, or with an empty input,
    [sendMessage] returns at its guard: the state is unchanged (no user
    message appended) and no request is issued.  Conversely a submit
    that changes the state or issues a request started from the idle
    state with a non-empty input; it leaves [loading] set, so that a
    further submit, whatever has been typed meanwhile, is rejected. *)
Theorem sendMessage_submit_guard
    (config : ApiConfig) (systemPrompt : string) (now : Z) (st : ChatState) :
  (loading st = true \/ input st = EmptyString ->
   sendMessage_submit config systemPrompt now st = (st, None))
  /\ (sendMessage_submit config systemPrompt now st <> (st, None) ->
      loading st = false /\ input st <> EmptyString)
  /\ (forall st1 request,
        sendMessage_submit config systemPrompt now st = (st1, Some request) ->
        loading st1 = true /\
        forall typed now',
          sendMessage_submit config systemPrompt now' (setInput typed st1) =
          (setInput typed st1, None)).
Proof.
  pose proof (sendMessage_submit_blocked config systemPrompt now st) as Hguard.
  split; [exact Hguard|]. split.
  - intros Hneq. destruct (loading st) eqn:Hl.
    + exfalso. apply Hneq, Hguard. now left.
    + split; [reflexivity|]. intros Hi. apply Hneq, Hguard. now right.
  - intros st1 request Hsub.
    destruct (loading st) eqn:Hl.
    + rewrite Hguard in Hsub by now left. discriminate.
    + destruct (input st) eqn:Hi.
      * rewrite Hguard in Hsub by now right. discriminate.
      * rewrite sendMessage_submit_idle in Hsub by congruence.
        injection Hsub as <- _. split; [reflexivity|].
        intros typed now'. unfold sendMessage_submit. cbn.
        now rewrite orb_true_r.
Qed.

Lemma step_oneSendAtATime
    (config : ApiConfig) (systemPrompt t_error : string)
    (c : Controller) (ev : ChatEvent) :
  oneSendAtATime c -> oneSendAtATime (step config systemPrompt t_error c ev).
Proof.
  unfold oneSendAtATime. intros Hc. destruct ev as [now | text | s e k o].
  - cbn [step chat inFlight]. destruct Hc as [[Hl Hn] | [Hl Hn]].
    + rewrite sendMessage_submit_blocked by now left.
      cbn [fst snd]. rewrite app_nil_r. now left.
    + destruct (input (chat c)) eqn:Hi.
      * rewrite sendMessage_submit_blocked by now right.
        cbn [fst snd]. rewrite app_nil_r. now right.
      * rewrite sendMessage_submit_idle by congruence.
        cbn [fst snd loading]. rewrite Hn. now left.
  - cbn [step chat inFlight setInput loading]. exact Hc.
  - cbn [step]. destruct (inFlight c) as [|rq rest] eqn:Hf.
    + now rewrite Hf.
    + cbn [chat inFlight]. right. split.
      * unfold sendMessage_settle.
        now destruct (receive config s e o).
      * destruct Hc as [[_ Hn] | [_ Hn]]; [|discriminate].
        destruct rest; [reflexivity | discriminate].
Qed.

(** Whatever the user does and however the replies arrive, at most one
    request is in flight, and exactly when [loading] is set. *)
Lemma run_oneSendAtATime
    (config : ApiConfig) (systemPrompt t_error : string)
    (events : list ChatEvent) :
  oneSendAtATime (run config systemPrompt t_error events).
Proof.
  unfold run.
  assert (H0 : oneSendAtATime initialController) by (right; now split).
  revert H0. generalize initialController.
  induction events as [|ev events IH]; intros c Hc; simpl.
  - exact Hc.
  - apply IH. now apply step_oneSendAtATime.
Qed.

(** C4.  When the send fails, by a transport-level error ([fetch]
    rejects) or by a response whose status is not 2xx, the controller
    appends exactly one message, of role assistant, whose content is the
    error text prefix followed by the description of the failure, and
    returns to idle ([loading] is false). *)
Theorem failed_send_appends_error
    (config : ApiConfig) (t_error : string) (startTime endTime catchTime : Z)
    (outcome : Result HttpResponse) (st : ChatState) :
  (forall res, outcome = Ok res -> res_ok res = false) ->
  let st' := sendMessage_settle config t_error startTime endTime catchTime
               outcome st in
  exists m,
    messages st' = messages st ++ [m]
    /\ m_role m = "assistant"
    /\ m_content m = JStr (t_error ++ String_of (failureOf outcome))%string
    /\ loading st' = false
    /\ input st' = input st.
Proof.
  intros Hfail. cbv zeta.
  exists (errorMessage config t_error (failureOf outcome) catchTime).
  unfold sendMessage_settle.
  assert (Hrecv : receive config startTime endTime outcome =
                  Throw (failureOf outcome)).
  { unfold receive, failureOf. destruct outcome as [res | e]; simpl.
    - rewrite (Hfail res eq_refl). simpl.
      now destruct (res_text res).
    - reflexivity. }
  rewrite Hrecv. repeat split.
Qed.

(* ================================================================= *)
(** ** The response adapter *)

Lemma member_not_null (data : json) (k : string) :
  data <> JNull -> member data k = Ok (prop data k).
Proof. destruct data; simpl; congruence. Qed.

Lemma aiMsg_not_null (config : ApiConfig) (data : json) :
  data <> JNull ->
  aiMsg config data = Ok (orElse (contentField config data) (JStr "(no response)")).
Proof.
  intros Hd. unfold aiMsg, contentField.
  destruct (provider config); rewrite member_not_null by exact Hd; reflexivity.
Qed.

Lemma totalTokens_not_null (config : ApiConfig) (data : json) :
  data <> JNull -> totalTokens config data = Ok (tokenField config data).
Proof.
  intros Hd. unfold totalTokens, tokenField.
  destruct (provider config); rewrite member_not_null by exact Hd; reflexivity.
Qed.

(** A response that is ok, with a decoded body that is not null, yields
    the assistant message; nothing is thrown. *)
Lemma receive_ok
    (config : ApiConfig) (startTime endTime : Z) (res : HttpResponse) (data : json) :
  res_ok res = true -> res_json res = Ok data -> data <> JNull ->
  receive config startTime endTime (Ok res) =
  Ok {| m_role := "assistant";
        m_content := orElse (contentField config data) (JStr "(no response)");
        m_model := Some (usedModel config);
        m_provider := Some (provider config);
        m_reasoningEffort := effortInUse config;
        m_tokensPerSecond :=
          tokensPerSecond (tokenField config data)
                          (elapsedSeconds startTime endTime);
        m_timestamp := Some endTime |}.
Proof.
  intros Hok Hjson Hd. unfold receive. cbn [bind].
  rewrite Hok, Hjson. cbn [negb bind].
  rewrite aiMsg_not_null, totalTokens_not_null by exact Hd. reflexivity.
Qed.

Lemma tokensPerSecond_set (total : option json) (elapsed : float) :
  tokensPerSecond total elapsed <> None <->
  truthy total = true /\ (0 <? elapsed)%float = true.
Proof.
  unfold tokensPerSecond. destruct total as [n|].
  - destruct (truthy (Some n)); cbn [andb].
    + destruct (0 <? elapsed)%float.
      * split; [now split | discriminate].
      * split; [congruence | intros [_ H]; discriminate].
    + split; [congruence | intros [H _]; discriminate].
  - simpl. split; [congruence | intros [H _]; discriminate].
Qed.

Lemma tokensPerSecond_number (x elapsed : float) :
  truthy (Some (JNum x)) = true -> (0 <? elapsed)%float = true ->
  tokensPerSecond (Some (JNum x)) elapsed = Some (Exact (x / elapsed)%float).
Proof.
  intros Hx He. unfold tokensPerSecond. now rewrite Hx, He.
Qed.

(** Rounding keeps the sign: what the division rounds, with the sign
    positive, is not below zero. *)
Lemma binary_round_aux_not_negative (mx ex : Z) (lx : location) :
  SFltb (binary_round_aux prec emax false mx ex lx) (S754_zero false) = false.
Proof.
  unfold binary_round_aux.
  destruct (shr_fexp prec emax mx ex lx) as [mrs' e'].
  destruct (shr_fexp prec emax _ e' loc_Exact) as [mrs'' e''].
  destruct (shr_m mrs''); [reflexivity | | reflexivity].
  now destruct (Z.leb e'' (emax - prec)).
Qed.

Lemma SFdiv_not_negative (a b : spec_float) :
  SFleb (S754_zero false) a = true -> SFltb (S754_zero false) b = true ->
  SFltb (SFdiv prec emax a b) (S754_zero false) = false.
Proof.
  destruct a as [sa|sa| |sa ma ea], b as [sb|sb| |sb mb eb];
    try destruct sa; try destruct sb; cbn; try discriminate; try reflexivity.
  intros _ _.
  destruct (SFdiv_core_binary prec emax (Z.pos ma) ea (Z.pos mb) eb)
    as [[mz ez] lz].
  apply binary_round_aux_not_negative.
Qed.

(** The binary64 quotient of a number that is not negative by a
    positive number is not negative. *)
Lemma quotient_not_negative (x d : float) :
  (0 <=? x)%float = true -> (0 <? d)%float = true ->
  (x / d <? 0)%float = false.
Proof.
  rewrite leb_spec, !ltb_spec, div_spec.
  change (Prim2SF 0) with (S754_zero false). apply SFdiv_not_negative.
Qed.

(** C6 (as the code has it).  For a reply that is ok with a decoded
    body that is not null, the assistant message is produced and its
    [tokensPerSecond] is set exactly when the token count read from the
    body ([eval_count] for ollama, [usage.total_tokens] otherwise) is
    truthy - present and, for a number, neither zero nor NaN - and the
    elapsed time is positive.  For a numeric count it is then the
    binary64 quotient of the count by the elapsed seconds, and it is
    not negative when the count is not negative; a count of zero leaves
    it unset.  For ollama, 2 seconds and 20 tokens give 10. *)
Theorem tokensPerSecond_of_reply :
  (forall (config : ApiConfig) (startTime endTime : Z)
          (res : HttpResponse) (data : json),
      res_ok res = true -> res_json res = Ok data -> data <> JNull ->
      exists m,
        receive config startTime endTime (Ok res) = Ok m /\
        let total := tokenField config data in
        let elapsed := elapsedSeconds startTime endTime in
        (m_tokensPerSecond m <> None <->
         truthy total = true /\ (0 <? elapsed)%float = true)
        /\ (forall x, total = Some (JNum x) -> (x =? 0)%float = true ->
              m_tokensPerSecond m = None)
        /\ (forall x, total = Some (JNum x) -> m_tokensPerSecond m <> None ->
              m_tokensPerSecond m = Some (Exact (x / elapsed)%float) /\
              ((0 <=? x)%float = true -> (x / elapsed <? 0)%float = false)))
  /\ (forall (ep key : string) (mdl : option string) (eff : option Effort),
        let config := {| endpoint := ep; apiKey := key; provider := ollama;
                         model := mdl; reasoningEffort := eff |} in
        let data := JObj [("message", JObj [("content", JStr "hi")]);
                          ("eval_count", JNum 20)] in
        let res := {| res_ok := true; res_status := 200;
                      res_text := Ok EmptyString; res_json := Ok data |} in
        exists m,
          receive config 0 2000 (Ok res) = Ok m /\
          m_content m = JStr "hi" /\
          m_tokensPerSecond m = Some (Exact 10)).
Proof.
  split.
  - intros config startTime endTime res data Hok Hjson Hd.
    eexists. split; [apply (receive_ok config startTime endTime res data Hok Hjson Hd)|].
    cbn [m_tokensPerSecond]. cbv zeta. split; [apply tokensPerSecond_set|]. split.
    + intros x Hx Hz. rewrite Hx.
      unfold tokensPerSecond. cbn [truthy]. now rewrite Hz.
    + intros x Hx Hset. rewrite Hx in Hset |- *.
      apply tokensPerSecond_set in Hset. destruct Hset as [Ht He].
      split; [now apply tokensPerSecond_number|].
      intros Hpos. now apply quotient_not_negative.
  - intros ep key mdl eff. cbv zeta. eexists.
    split; [apply receive_ok; [reflexivity | reflexivity | discriminate]|].
    split; reflexivity.
Qed.

(** C6 fails as stated: with [eval_count] present and equal to 0 and two
    seconds elapsed, [tokensPerSecond] is left unset rather than set to
    0 / 2; with a negative count the value that is set is negative; and
    with a count of 2^1023 and one millisecond elapsed the value that is
    set is infinite. *)
Lemma tokensPerSecond_counterexample :
  let config := {| endpoint := "http://localhost:11434"; apiKey := EmptyString;
                   provider := ollama; model := Some "llama3";
                   reasoningEffort := None |} in
  let reply (count : float) :=
    Ok {| res_ok := true; res_status := 200; res_text := Ok EmptyString;
          res_json := Ok (JObj [("message", JObj [("content", JStr "hi")]);
                                ("eval_count", JNum count)]) |} in
  (0 <? elapsedSeconds 0 2000)%float = true
  /\ (exists m, receive config 0 2000 (reply 0%float) = Ok m /\
                m_tokensPerSecond m = None)
  /\ (exists m, receive config 0 2000 (reply (-4)%float) = Ok m /\
                m_tokensPerSecond m = Some (Exact (-2)) /\
                (-2 <? 0)%float = true)
  /\ (exists m, receive config 0 1 (reply 0x1p+1023%float) = Ok m /\
                m_tokensPerSecond m = Some (Exact infinity)).
Proof.
  cbv zeta. split; [reflexivity|]. split; [|split].
  - eexists. split; reflexivity.
  - eexists. split; [reflexivity|]. split; reflexivity.
  - eexists. split; reflexivity.
Qed.

(** When the body is not null and the content read from it is absent or
    falsy, the reply text is the placeholder and nothing is thrown. *)
Lemma placeholder_when_no_content
    (config : ApiConfig) (startTime endTime : Z) (res : HttpResponse) (data : json) :
  res_ok res = true -> res_json res = Ok data -> data <> JNull ->
  truthy (contentField config data) = false ->
  exists m, receive config startTime endTime (Ok res) = Ok m /\
            m_role m = "assistant" /\
            m_content m = JStr "(no response)".
Proof.
  intros Hok Hjson Hd Hc. eexists.
  split; [apply (receive_ok config startTime endTime res data Hok Hjson Hd)|].
  split; [reflexivity|]. cbn [m_content]. unfold orElse.
  destruct (contentField config data); [now rewrite Hc | reflexivity].
Qed.

(** C7 at a body that is [null].  The response is ok and its decoded
    body has no content to extract, yet reading [data.message] (or
    [data.choices]) throws: the [catch] block appends the error message,
    not the placeholder. *)
Theorem null_body_reported_as_error
    (t_error : string) (st : ChatState) (p : Provider) :
  let config := {| endpoint := "http://localhost:11434"; apiKey := EmptyString;
                   provider := p; model := Some "llama3";
                   reasoningEffort := None |} in
  let res := {| res_ok := true; res_status := 200;
                res_text := Ok "null"; res_json := Ok JNull |} in
  let key := match p with ollama => "message" | _ => "choices" end in
  receive config 0 2000 (Ok res) = Throw (NullRead key)
  /\ messages (sendMessage_settle config t_error 0 2000 2001 (Ok res) st) =
     messages st ++
     [ {| m_role := "assistant";
          m_content :=
            JStr (t_error ++
                  "TypeError: Cannot read properties of null (reading '" ++
                  key ++ "')")%string;
          m_model := Some "llama3";
          m_provider := Some p;
          m_reasoningEffort := None;
          m_tokensPerSecond := None;
          m_timestamp := Some 2001%Z |} ]
  /\ JStr (t_error ++
           "TypeError: Cannot read properties of null (reading '" ++
           key ++ "')")%string <> JStr "(no response)".
Proof.
  cbv zeta. split; [now destruct p|]. split; [now destruct p|].
  intros H. injection H as H. apply (f_equal String.length) in H.
  rewrite append_length in H. destruct p; simpl in H; lia.
Qed.

(* ================================================================= *)
(** ** The session record written on a change of the messages *)

Lemma sessionToSave_fields
    (messages : list Message) (sid : string) (now1 now2 : Z)
    (session : ChatSession) :
  sessionToSave messages sid now1 now2 = Ok (Some session) ->
  id session = sid /\ cs_messages session = messages /\
  createdAt session = now1 /\ updatedAt session = now2.
Proof.
  unfold sessionToSave. destruct messages as [|m rest]; [discriminate|].
  destruct (sessionTitle (m :: rest)); cbn [bind]; [|discriminate].
  intros H. injection H as <-. repeat split.
Qed.

Lemma load_after_save (session : ChatSession) (db : Store) :
  loadChatSession (id session) (saveChatSession session db) = Some session.
Proof. unfold loadChatSession, saveChatSession. now rewrite String.eqb_refl. Qed.

Lemma load_after_delete (k : string) (db : Store) :
  loadChatSession k (deleteChatSession k db) = None.
Proof. unfold loadChatSession, deleteChatSession. now rewrite String.eqb_refl. Qed.

(** C10 at an append.  A session is created by a first message at time
    1000 and a reply is appended at time 5000: the record written by the
    second save keeps the id but carries [createdAt] = 5000, the time of
    the append, not the 1000 of the creation. *)
Theorem createdAt_rewritten_on_append :
  let first := userSays "hello" 1000 in
  let reply := assistantSays "hi" 5000 in
  let db1 := persist [first] "session-1000" 1000 1000 emptyStore in
  let db2 := persist [first; reply] "session-1000" 5000 5000 db1 in
  option_map id (loadChatSession "session-1000" db1) = Some "session-1000"
  /\ option_map createdAt (loadChatSession "session-1000" db1) = Some 1000%Z
  /\ option_map id (loadChatSession "session-1000" db2) = Some "session-1000"
  /\ option_map createdAt (loadChatSession "session-1000" db2) = Some 5000%Z
  /\ option_map updatedAt (loadChatSession "session-1000" db2) = Some 5000%Z.
Proof. cbv zeta. repeat split. Qed.

(* ================================================================= *)
(** ** The model catalog *)

Lemma nth_error_mapi_from {A B} (f : nat -> A -> B) (l : list A) :
  forall k i, nth_error (mapi_from f k l) i =
              option_map (f (k + i)%nat) (nth_error l i).
Proof.
  induction l as [|x l IH]; intros k i.
  - now destruct i.
  - destruct i as [|i]; simpl.
    + now rewrite Nat.add_0_r.
    + rewrite IH. now rewrite Nat.add_succ_r.
Qed.

Lemma modelInfoOf_id (nts : float -> string) (name : string)
    (outcome : Result DetailResponse) :
  mi_id (modelInfoOf nts name outcome) = name.
Proof.
  unfold modelInfoOf.
  destruct outcome as [detailRes|e]; cbn [bind]; [|reflexivity].
  destruct (dr_ok detailRes); [|reflexivity].
  destruct (dr_json detailRes) as [detail|e]; cbn [bind]; [|reflexivity].
  now destruct (detailSupportsReasoning nts name detail).
Qed.

Lemma map_id_mapi_from (nts : float -> string) (detailOf : nat -> Result DetailResponse)
    (names : list string) :
  forall k,
    map mi_id (mapi_from (fun i name => modelInfoOf nts name (detailOf i)) k names)
    = names.
Proof.
  induction names as [|n names IH]; intros k; simpl; [reflexivity|].
  now rewrite modelInfoOf_id, IH.
Qed.

Lemma toLowerCase_orEmpty (s : string) :
  (let l := toLowerCase s in if nonEmpty l then l else EmptyString) = toLowerCase s.
Proof. cbv zeta. now destruct (toLowerCase s). Qed.

(** One lookup: the extended classification when the detail is usable,
    the identifier-only one otherwise. *)
Lemma modelInfoOf_classification (nts : float -> string) (name : string)
    (outcome : Result DetailResponse) :
  supportsReasoning (modelInfoOf nts name outcome) =
  match usableDetail nts outcome with
  | Some (modelfile, parameters) =>
      includes (toLowerCase modelfile) "reasoning" ||
      includes (toLowerCase parameters) "reasoning" ||
      isReasoningModel (Some name)
  | None => isReasoningModel (Some name)
  end.
Proof.
  unfold modelInfoOf, usableDetail.
  destruct outcome as [detailRes|e]; cbn [bind]; [|reflexivity].
  destruct (dr_ok detailRes); [|reflexivity].
  destruct (dr_json detailRes) as [detail|e]; cbn [bind]; [|reflexivity].
  unfold detailSupportsReasoning.
  destruct detail; cbn [member bind]; try reflexivity;
    match goal with
    | |- context [prop ?d "modelfile"] =>
        destruct (prop d "modelfile") as [[| | |s| |]|]; cbn [bind supportsReasoning];
        try reflexivity
    end;
    try (rewrite toLowerCase_orEmpty; reflexivity).
Qed.

Lemma modelInfos_ollama (nts : float -> string) (config : ApiConfig)
    (res : ListResponse) (data : ListBody)
    (detailOf : nat -> Result DetailResponse) :
  provider config = ollama -> lr_ok res = true -> lr_json res = Ok data ->
  modelInfos nts config (Ok res) detailOf =
  Ok (mapi_from (fun i name => modelInfoOf nts name (detailOf i)) 0
        (match lb_models data with Some l => l | None => [] end)).
Proof.
  intros Hp Hok Hjson. unfold modelInfos. cbn [bind].
  now rewrite Hok, Hjson, Hp.
Qed.

(** C8.  For ollama, with the list response ok and decoded, the catalog
    fetch succeeds whatever each detail lookup does: no error is set,
    and the models shown are the listed names, one entry per name and in
    the order of the list.  The entry of a name whose lookup failed or
    came back malformed carries the identifier-only classification; the
    entry of a name whose lookup is usable carries the extended one:
    "reasoning" occurs in the lowercased modelfile text or parameters
    text, or the identifier-only check holds. *)
Theorem ollama_catalog_isolates_detail_failures
    (nts : float -> string) (config : ApiConfig)
    (res : ListResponse) (data : ListBody)
    (detailOf : nat -> Result DetailResponse) (st : SettingsState) :
  provider config = ollama ->
  lr_ok res = true -> lr_json res = Ok data ->
  let names := match lb_models data with Some l => l | None => [] end in
  let after := fst (fetchModels nts config (Ok res) detailOf st) in
  modelsError after = EmptyString
  /\ loadingModels after = false
  /\ map mi_id (availableModels after) = names
  /\ forall i name,
       nth_error names i = Some name ->
       exists info,
         nth_error (availableModels after) i = Some info
         /\ mi_id info = name
         /\ supportsReasoning info =
            match usableDetail nts (detailOf i) with
            | Some (modelfile, parameters) =>
                includes (toLowerCase modelfile) "reasoning" ||
                includes (toLowerCase parameters) "reasoning" ||
                isReasoningModel (Some name)
            | None => isReasoningModel (Some name)
            end.
Proof.
  intros Hp Hok Hjson. cbv zeta. unfold fetchModels.
  rewrite (modelInfos_ollama nts config res data detailOf Hp Hok Hjson).
  cbn [fst availableModels modelsError loadingModels
       setLoadingModels setAvailableModels setModelsError].
  split; [reflexivity|]. split; [reflexivity|].
  split; [apply map_id_mapi_from|].
  intros i name Hi.
  exists (modelInfoOf nts name (detailOf i)).
  rewrite nth_error_mapi_from, Hi. cbn [option_map Nat.add].
  split; [reflexivity|]. split.
  - apply modelInfoOf_id.
  - apply modelInfoOf_classification.
Qed.

Lemma listsModel_In (ids : list string) (m : string) :
  listsModel ids (Some m) = true <-> In m ids.
Proof.
  unfold listsModel. rewrite existsb_exists. split.
  - intros [x [Hin Heq]]. apply String.eqb_eq in Heq. now subst.
  - intros Hin. exists m. split; [exact Hin | apply String.eqb_refl].
Qed.

(** C9 (as the code has it).  After a successful catalog fetch that
    returns at least one model: if the configured model is unset (absent
    or empty) or is not among the returned identifiers, [setConfig] is
    called with the model replaced by the first entry of the catalog, in
    the order the adapter returned it, and nothing else changed; if the
    configured model is set and among the returned identifiers, the
    configuration is left untouched.  After a successful fetch that
    returns no model the configuration is left untouched. *)
Theorem selectModel_after_fetch
    (nts : float -> string) (config : ApiConfig)
    (listing : Result ListResponse)
    (detailOf : nat -> Result DetailResponse) (st : SettingsState)
    (infos : list ModelInfo) :
  modelInfos nts config listing detailOf = Ok infos ->
  let r := fetchModels nts config listing detailOf st in
  let after := configAfter config r in
  availableModels (fst r) = infos
  /\ match infos with
     | [] => snd r = None /\ after = config
     | first :: _ =>
         (modelUnset (model config) = true \/
          (forall m, model config = Some m -> ~ In m (map mi_id infos)) ->
          model after = Some (mi_id first)
          /\ endpoint after = endpoint config
          /\ apiKey after = apiKey config
          /\ provider after = provider config
          /\ reasoningEffort after = reasoningEffort config)
         /\ (forall m, model config = Some m -> m <> EmptyString ->
                       In m (map mi_id infos) ->
                       snd r = None /\ after = config)
     end.
Proof.
  intros Hinfos. cbv zeta. unfold fetchModels, configAfter. rewrite Hinfos.
  cbn [fst snd availableModels setLoadingModels setAvailableModels].
  split; [reflexivity|].
  destruct infos as [|first rest]; [now split|].
  unfold selectModel. split.
  - intros Hcond.
    assert (Hb : modelUnset (model config)
                 || negb (listsModel (map mi_id (first :: rest)) (model config))
                 = true).
    { destruct Hcond as [Hu | Hn]; [now rewrite Hu|].
      destruct (model config) as [m|] eqn:Em; [|reflexivity].
      destruct (listsModel (map mi_id (first :: rest)) (Some m)) eqn:El.
      - apply listsModel_In in El. now destruct (Hn m eq_refl).
      - now rewrite orb_true_r. }
    rewrite Hb. repeat split.
  - intros m Hm Hne Hin.
    assert (Hb : modelUnset (model config)
                 || negb (listsModel (map mi_id (first :: rest)) (model config))
                 = false).
    { rewrite Hm. cbn [modelUnset].
      apply (proj2 (listsModel_In _ m)) in Hin. rewrite Hin.
      destruct m; [congruence | reflexivity]. }
    rewrite Hb. now split.
Qed.

(** C9 fails as stated on an empty catalog: the fetch succeeds, the
    configured model "llama3" is not among the (no) returned
    identifiers, yet [setConfig] is not called and the model stays
    "llama3"; it is not the first returned identifier, there is none. *)
Lemma empty_catalog_keeps_model :
  let config := {| endpoint := "http://localhost:11434"; apiKey := EmptyString;
                   provider := ollama; model := Some "llama3";
                   reasoningEffort := None |} in
  let listing :=
    Ok {| lr_ok := true; lr_status := 200; lr_statusText := "OK";
          lr_text := Ok EmptyString;
          lr_json := Ok {| lb_models := Some []; lb_data := None |} |} in
  let st := {| availableModels := []; loadingModels := false;
               modelsError := EmptyString |} in
  let r := fetchModels (fun _ => EmptyString) config listing
             (fun _ => Throw (Rejection "unreachable")) st in
  let ids := map mi_id (availableModels (fst r)) in
  modelsError (fst r) = EmptyString
  /\ ~ In "llama3" ids
  /\ hd_error ids = None
  /\ snd r = None
  /\ model (configAfter config r) = Some "llama3"
  /\ model (configAfter config r) <> hd_error ids.
Proof.
  cbv zeta. repeat split; try discriminate. intros [].
Qed.

(* ================================================================= *)
(** ** Worked instances *)

(** A submit while a send is pending leaves the state as it is. *)
Lemma sendMessage_submit_guard_instance :
  (loading sampleBusy = true \/ input sampleBusy = EmptyString)
  /\ sendMessage_submit sampleConfig EmptyString 2000 sampleBusy
     = (sampleBusy, None).
Proof.
  assert (H : loading sampleBusy = true \/ input sampleBusy = EmptyString)
    by (left; reflexivity).
  split; [exact H|].
  exact (proj1 (sendMessage_submit_guard sampleConfig EmptyString 2000 sampleBusy) H).
Defined.

(** A reply with status 500 ends as one assistant message with the
    error text. *)
Lemma failed_send_appends_error_instance :
  (forall res, sampleFailure = Ok res -> res_ok res = false)
  /\ exists m,
       messages (sendMessage_settle sampleConfig "Error: " 1000 1500 1501
                   sampleFailure sampleBusy)
       = messages sampleBusy ++ [m]
       /\ m_role m = "assistant"
       /\ m_content m = JStr "Error: Error: HTTP 500: model not loaded"
       /\ loading (sendMessage_settle sampleConfig "Error: " 1000 1500 1501
                     sampleFailure sampleBusy) = false
       /\ input (sendMessage_settle sampleConfig "Error: " 1000 1500 1501
                   sampleFailure sampleBusy) = input sampleBusy.
Proof.
  assert (H : forall res, sampleFailure = Ok res -> res_ok res = false).
  { intros res Hres. injection Hres as <-. reflexivity. }
  split; [exact H|].
  exact (failed_send_appends_error sampleConfig "Error: " 1000 1500 1501
           sampleFailure sampleBusy H).
Defined.

(** Twenty tokens in two seconds. *)
Lemma tokensPerSecond_of_reply_instance :
  res_ok sampleReply = true
  /\ res_json sampleReply = Ok sampleReplyBody
  /\ sampleReplyBody <> JNull
  /\ exists m,
       receive sampleConfig 0 2000 (Ok sampleReply) = Ok m /\
       (m_tokensPerSecond m <> None <->
        truthy (tokenField sampleConfig sampleReplyBody) = true /\
        (0 <? elapsedSeconds 0 2000)%float = true)
       /\ (forall x, tokenField sampleConfig sampleReplyBody = Some (JNum x) ->
             (x =? 0)%float = true -> m_tokensPerSecond m = None)
       /\ (forall x, tokenField sampleConfig sampleReplyBody = Some (JNum x) ->
             m_tokensPerSecond m <> None ->
             m_tokensPerSecond m = Some (Exact (x / elapsedSeconds 0 2000)%float) /\
             ((0 <=? x)%float = true ->
              (x / elapsedSeconds 0 2000 <? 0)%float = false)).
Proof.
  assert (Hnull : sampleReplyBody <> JNull) by discriminate.
  split; [reflexivity|]. split; [reflexivity|]. split; [exact Hnull|].
  exact (proj1 tokensPerSecond_of_reply sampleConfig 0%Z 2000%Z
           sampleReply sampleReplyBody eq_refl eq_refl Hnull).
Defined.

(** Three models; the first lookup is rejected, the second is refused,
    the third answers with a modelfile that mentions reasoning. *)
Lemma ollama_catalog_instance :
  (provider sampleConfig = ollama /\ lr_ok sampleList = true /\
   lr_json sampleList = Ok sampleListBody)
  /\ modelsError (fst (fetchModels noNumberText sampleConfig (Ok sampleList)
                         sampleDetails sampleSettings)) = EmptyString
  /\ loadingModels (fst (fetchModels noNumberText sampleConfig (Ok sampleList)
                           sampleDetails sampleSettings)) = false
  /\ map mi_id (availableModels
                  (fst (fetchModels noNumberText sampleConfig (Ok sampleList)
                          sampleDetails sampleSettings))) = sampleNames
  /\ forall i name,
       nth_error sampleNames i = Some name ->
       exists info,
         nth_error (availableModels
                      (fst (fetchModels noNumberText sampleConfig (Ok sampleList)
                              sampleDetails sampleSettings))) i = Some info
         /\ mi_id info = name
         /\ supportsReasoning info =
            match usableDetail noNumberText (sampleDetails i) with
            | Some (modelfile, parameters) =>
                includes (toLowerCase modelfile) "reasoning" ||
                includes (toLowerCase parameters) "reasoning" ||
                isReasoningModel (Some name)
            | None => isReasoningModel (Some name)
            end.
Proof.
  split; [repeat split|].
  exact (ollama_catalog_isolates_detail_failures noNumberText sampleConfig
           sampleList sampleListBody sampleDetails sampleSettings
           eq_refl eq_refl eq_refl).
Defined.

(** The classifications of that catalog. *)
Example ollama_catalog_classified :
  map supportsReasoning
      (availableModels
         (fst (fetchModels noNumberText sampleConfig (Ok sampleList)
                 sampleDetails sampleSettings)))
  = [false; true; true].
Proof. reflexivity. Qed.

(** The configured model "deepseek-r1:8b" is in the catalog and stays;
    a configured model that is not there gives way to "llama3". *)
Lemma selectModel_after_fetch_instance :
  let infos := [ {| mi_id := "llama3"; supportsReasoning := false |};
                 {| mi_id := "deepseek-r1:8b"; supportsReasoning := true |};
                 {| mi_id := "qwen3"; supportsReasoning := true |} ] in
  modelInfos noNumberText sampleConfig (Ok sampleList) sampleDetails = Ok infos
  /\ availableModels (fst (fetchModels noNumberText sampleConfig (Ok sampleList)
                             sampleDetails sampleSettings)) = infos
  /\ snd (fetchModels noNumberText sampleConfig (Ok sampleList)
            sampleDetails sampleSettings) = None
  /\ configAfter sampleConfig
       (fetchModels noNumberText sampleConfig (Ok sampleList)
          sampleDetails sampleSettings) = sampleConfig.
Proof.
  cbv zeta.
  pose proof (selectModel_after_fetch noNumberText sampleConfig (Ok sampleList)
                sampleDetails sampleSettings _ eq_refl) as H.
  cbv zeta in H. destruct H as [Ha [_ Hkeep]].
  split; [reflexivity|]. split; [exact Ha|].
  apply (Hkeep "deepseek-r1:8b" eq_refl).
  - discriminate.
  - right. left. reflexivity.
Defined.

(* ================================================================= *)
(** * Further properties of the code *)

(** ** The capability detector *)

Lemma toLowerCase_append (a b : string) :
  toLowerCase (a ++ b) = (toLowerCase a ++ toLowerCase b)%string.
Proof. induction a as [|c a IH]; simpl; [reflexivity | now rewrite IH]. Qed.

Lemma nonEmpty_toLowerCase (s : string) :
  nonEmpty (toLowerCase s) = nonEmpty s.
Proof. now destruct s. Qed.

Lemma isReasoningModel_includes (name : string) :
  isReasoningModel (Some name) =
  (let lowerName := toLowerCase name in
   includes lowerName "o1" || includes lowerName "reasoning" ||
   includes lowerName "gpt-oss" || includes lowerName "deepseek-r1").
Proof. unfold isReasoningModel. now destruct name. Qed.

Lemma includes_append (s needle p q : string) :
  includes s needle = true -> includes (p ++ s ++ q) needle = true.
Proof.
  rewrite !includes_spec. intros [a [b ->]].
  exists (p ++ a)%string, (b ++ q)%string.
  clear. induction p as [|c p IH]; simpl.
  - induction a as [|c a IH]; simpl.
    + induction needle as [|c n IH]; simpl; [reflexivity | now rewrite IH].
    + now rewrite IH.
  - now rewrite IH.
Qed.

(** Two identifiers that differ only in the case of their letters are
    classified alike. *)
Theorem isReasoningModel_ignores_case (a b : string) :
  toLowerCase a = toLowerCase b ->
  isReasoningModel (Some a) = isReasoningModel (Some b).
Proof. intros H. rewrite !isReasoningModel_includes. cbv zeta. now rewrite H. Qed.

Lemma isReasoningModel_ignores_case_instance :
  toLowerCase "DeepSeek-R1:8B" = toLowerCase "deepseek-r1:8b"
  /\ isReasoningModel (Some "DeepSeek-R1:8B") = isReasoningModel (Some "deepseek-r1:8b").
Proof.
  split; [reflexivity|].
  exact (isReasoningModel_ignores_case "DeepSeek-R1:8B" "deepseek-r1:8b" eq_refl).
Defined.

(** A reasoning-capable identifier stays so under any prefix and suffix
    (a registry path before it, a tag after it). *)
Theorem isReasoningModel_embedded (name prefix suffix : string) :
  isReasoningModel (Some name) = true ->
  isReasoningModel (Some (prefix ++ name ++ suffix)%string) = true.
Proof.
  rewrite !isReasoningModel_includes. cbv zeta.
  rewrite !toLowerCase_append, !orb_true_iff.
  intros [[[H | H] | H] | H];
    [left; left; left | left; left; right | left; right | right];
    now apply includes_append.
Qed.

Lemma isReasoningModel_embedded_instance :
  isReasoningModel (Some "gpt-oss") = true
  /\ isReasoningModel (Some ("hf.co/openai/" ++ "gpt-oss" ++ "-20b:latest")%string) = true.
Proof.
  split; [reflexivity|].
  exact (isReasoningModel_embedded "gpt-oss" "hf.co/openai/" "-20b:latest" eq_refl).
Defined.

(** ** Request and reply *)

Lemma orDefault_nonEmpty (x : option string) (d : string) :
  nonEmpty d = true -> nonEmpty (orDefault x d) = true.
Proof.
  intros Hd. unfold orDefault. destruct x as [s|]; [|exact Hd].
  destruct (nonEmpty s) eqn:E; [exact E | exact Hd].
Qed.

Lemma requestBody_model (config : ApiConfig) (systemPrompt : string)
    (prior : list Message) (userInput : string) :
  rb_model (requestBody config systemPrompt prior userInput) = usedModel config.
Proof. unfold requestBody, usedModel. now destruct (provider config). Qed.

Lemma usedModel_nonEmpty (config : ApiConfig) :
  nonEmpty (usedModel config) = true.
Proof.
  unfold usedModel. apply orDefault_nonEmpty. now destruct (provider config).
Qed.

(** What [receive] returns when it returns a message. *)
Lemma receive_Ok_fields (config : ApiConfig) (startTime endTime : Z)
    (outcome : Result HttpResponse) (m : Message) :
  receive config startTime endTime outcome = Ok m ->
  m_role m = "assistant" /\ m_model m = Some (usedModel config) /\
  m_provider m = Some (provider config) /\
  m_reasoningEffort m = effortInUse config /\
  m_timestamp m = Some endTime.
Proof.
  unfold receive. destruct outcome as [res|e]; cbn [bind]; [|discriminate].
  destruct (res_ok res); cbn [negb].
  - destruct (res_json res) as [data|e]; cbn [bind]; [|discriminate].
    destruct (aiMsg config data) as [content|e]; cbn [bind]; [|discriminate].
    destruct (totalTokens config data) as [total|e]; cbn [bind]; [|discriminate].
    intros H. injection H as <-. repeat split.
  - destruct (res_text res); cbn [bind]; discriminate.
Qed.

(** Whatever the outcome of the request, [sendMessage] ends by appending
    exactly one message, of role assistant, that names the provider of
    the configuration and the very model the request named; that model
    name is never empty. *)
Theorem settle_appends_one_assistant_message
    (config : ApiConfig) (systemPrompt t_error : string)
    (prior : list Message) (userInput : string)
    (startTime endTime catchTime : Z)
    (outcome : Result HttpResponse) (st : ChatState) :
  let body := requestBody config systemPrompt prior userInput in
  let st' := sendMessage_settle config t_error startTime endTime catchTime
               outcome st in
  exists m,
    messages st' = messages st ++ [m]
    /\ loading st' = false
    /\ input st' = input st
    /\ m_role m = "assistant"
    /\ m_model m = Some (rb_model body)
    /\ m_provider m = Some (provider config)
    /\ nonEmpty (rb_model body) = true.
Proof.
  cbv zeta. rewrite requestBody_model. unfold sendMessage_settle.
  destruct (receive config startTime endTime outcome) as [m|e] eqn:E.
  - exists m. apply receive_Ok_fields in E.
    destruct E as [Hr [Hm [Hp _]]].
    repeat split; try assumption. apply usedModel_nonEmpty.
  - exists (errorMessage config t_error e catchTime).
    repeat split. apply usedModel_nonEmpty.
Qed.

Lemma sentEffort_requestBody (config : ApiConfig) (systemPrompt : string)
    (prior : list Message) (userInput : string) :
  sentEffort (requestBody config systemPrompt prior userInput) =
  match provider config with
  | gpt4all => None
  | _ => effortInUse config
  end.
Proof.
  unfold sentEffort, requestBody.
  destruct (provider config); cbn; try reflexivity;
    now destruct (effortInUse config).
Qed.

(** The effort recorded on a reply is the reasoning field the request
    carried, for every provider but gpt4all: there the request carries
    no reasoning field, while the reply still records the configured
    effort of a reasoning-capable model. *)
Theorem reply_effort_and_request
    (config : ApiConfig) (systemPrompt : string)
    (prior : list Message) (userInput : string)
    (startTime endTime : Z) (outcome : Result HttpResponse) (m : Message) :
  receive config startTime endTime outcome = Ok m ->
  let body := requestBody config systemPrompt prior userInput in
  match provider config with
  | gpt4all =>
      sentEffort body = None /\ m_reasoningEffort m = effortInUse config
  | _ => m_reasoningEffort m = sentEffort body
  end.
Proof.
  intros H. apply receive_Ok_fields in H. destruct H as [_ [_ [_ [He _]]]].
  cbv zeta. rewrite sentEffort_requestBody.
  destruct (provider config); try exact He. now split.
Qed.

Lemma reply_effort_and_request_instance :
  let config := {| endpoint := "http://localhost:4891"; apiKey := EmptyString;
                   provider := gpt4all; model := Some "deepseek-r1:8b";
                   reasoningEffort := Some high |} in
  let m := {| m_role := "assistant"; m_content := JStr "hi";
              m_model := Some "deepseek-r1:8b"; m_provider := Some gpt4all;
              m_reasoningEffort := Some "high";
              m_tokensPerSecond := None; m_timestamp := Some 2000%Z |} in
  let reply := Ok {| res_ok := true; res_status := 200;
                     res_text := Ok EmptyString;
                     res_json := Ok (JObj [("choices",
                                   JArr [JObj [("message",
                                     JObj [("content", JStr "hi")])]])]) |} in
  receive config 0 2000 reply = Ok m
  /\ sentEffort (requestBody config EmptyString [] "hello") = None
  /\ m_reasoningEffort m = Some "high".
Proof.
  cbv zeta.
  assert (H : receive
                {| endpoint := "http://localhost:4891"; apiKey := EmptyString;
                   provider := gpt4all; model := Some "deepseek-r1:8b";
                   reasoningEffort := Some high |} 0 2000
                (Ok {| res_ok := true; res_status := 200;
                       res_text := Ok EmptyString;
                       res_json := Ok (JObj [("choices",
                                     JArr [JObj [("message",
                                       JObj [("content", JStr "hi")])]])]) |})
              = Ok {| m_role := "assistant"; m_content := JStr "hi";
                      m_model := Some "deepseek-r1:8b"; m_provider := Some gpt4all;
                      m_reasoningEffort := Some "high";
                      m_tokensPerSecond := None; m_timestamp := Some 2000%Z |})
    by reflexivity.
  split; [exact H|].
  exact (reply_effort_and_request _ EmptyString [] "hello" _ _ _ _ H).
Defined.

(** A submit from the idle state with a non-empty input, followed by the
    settling of its request, leaves the conversation longer by exactly
    two messages - the user's text, then one assistant message - with
    the input cleared and the controller idle again. *)
Theorem accepted_send_adds_one_exchange
    (config : ApiConfig) (systemPrompt t_error : string)
    (now startTime endTime catchTime : Z)
    (outcome : Result HttpResponse) (st : ChatState) :
  loading st = false -> input st <> EmptyString ->
  let submitted := sendMessage_submit config systemPrompt now st in
  let st' := sendMessage_settle config t_error startTime endTime catchTime
               outcome (fst submitted) in
  snd submitted = Some (chatRequest config systemPrompt (messages st) (input st))
  /\ exists user reply,
       messages st' = messages st ++ [user; reply]
       /\ m_role user = "user" /\ m_content user = JStr (input st)
       /\ m_role reply = "assistant"
       /\ input st' = EmptyString /\ loading st' = false.
Proof.
  intros Hl Hi. cbv zeta. rewrite sendMessage_submit_idle by assumption.
  cbn [fst snd]. split; [reflexivity|].
  unfold sendMessage_settle.
  destruct (receive config startTime endTime outcome) as [m|e] eqn:E.
  - eexists _, m. cbn. rewrite <- app_assoc. cbn.
    apply receive_Ok_fields in E. destruct E as [Hr _].
    repeat split. exact Hr.
  - eexists _, (errorMessage config t_error e catchTime). cbn.
    rewrite <- app_assoc. cbn. repeat split.
Qed.

Lemma accepted_send_adds_one_exchange_instance :
  let st := {| messages := []; input := "hello"; loading := false |} in
  let st' := sendMessage_settle sampleConfig "Error: " 1000 1500 1501
               sampleFailure
               (fst (sendMessage_submit sampleConfig EmptyString 1000 st)) in
  (loading st = false /\ input st <> EmptyString)
  /\ exists user reply,
       messages st' = messages st ++ [user; reply]
       /\ m_role user = "user" /\ m_content user = JStr (input st)
       /\ m_role reply = "assistant"
       /\ input st' = EmptyString /\ loading st' = false.
Proof.
  cbv zeta.
  assert (Hi : input {| messages := []; input := "hello"; loading := false |}
               <> EmptyString) by discriminate.
  split; [split; [reflexivity | exact Hi]|].
  exact (proj2 (accepted_send_adds_one_exchange sampleConfig EmptyString "Error: "
                  1000 1000 1500 1501 sampleFailure
                  {| messages := []; input := "hello"; loading := false |}
                  eq_refl Hi)).
Defined.

(** ** The conversation over any sequence of events *)

Lemma exchanges_snoc (n : nat) :
  exchanges n ++ ["user"; "assistant"] = exchanges (S n).
Proof. induction n as [|n IH]; [reflexivity|]. cbn. now rewrite IH. Qed.

Lemma settle_roles (config : ApiConfig) (t_error : string)
    (startTime endTime catchTime : Z) (outcome : Result HttpResponse)
    (st : ChatState) :
  map m_role (messages (sendMessage_settle config t_error startTime endTime
                          catchTime outcome st))
  = map m_role (messages st) ++ ["assistant"]
  /\ loading (sendMessage_settle config t_error startTime endTime
                catchTime outcome st) = false.
Proof.
  unfold sendMessage_settle.
  destruct (receive config startTime endTime outcome) as [m|e] eqn:E; cbn.
  - apply receive_Ok_fields in E. destruct E as [Hr _].
    rewrite map_app. cbn. now rewrite Hr.
  - rewrite map_app. now cbn.
Qed.

Lemma step_turnsAlternate
    (config : ApiConfig) (systemPrompt t_error : string)
    (c : Controller) (ev : ChatEvent) :
  oneSendAtATime c -> turnsAlternate (chat c) ->
  turnsAlternate (chat (step config systemPrompt t_error c ev)).
Proof.
  unfold turnsAlternate. intros Hone [n Hn].
  destruct ev as [now | text | s e k o].
  - cbn [step chat]. destruct (loading (chat c)) eqn:Hl.
    + rewrite sendMessage_submit_blocked by now left.
      cbn [fst]. exists n. now rewrite Hl.
    + destruct (input (chat c)) eqn:Hi.
      * rewrite sendMessage_submit_blocked by now right.
        cbn [fst]. exists n. now rewrite Hl.
      * rewrite sendMessage_submit_idle by congruence.
        cbn [fst messages loading]. exists n.
        rewrite map_app, Hn. cbn. now rewrite app_nil_r.
  - cbn [step chat setInput messages loading]. now exists n.
  - cbn [step]. destruct (inFlight c) as [|rq rest] eqn:Hf.
    + now exists n.
    + cbn [chat].
      assert (Hl : loading (chat c) = true).
      { destruct Hone as [[Hl _] | [_ Hnil]]; [exact Hl|].
        rewrite Hf in Hnil. discriminate. }
      destruct (settle_roles config t_error s e k o (chat c)) as [Hr Hl'].
      exists (S n). rewrite Hr, Hl', Hn, Hl, <- app_assoc. cbn.
      rewrite app_nil_r. apply exchanges_snoc.
Qed.

(** However submits, edits of the input and replies interleave, the
    conversation alternates user and assistant messages, starting with
    the user, and ends on a user message exactly while a send is
    pending. *)
Theorem run_turnsAlternate
    (config : ApiConfig) (systemPrompt t_error : string)
    (events : list ChatEvent) :
  turnsAlternate (chat (run config systemPrompt t_error events)).
Proof.
  unfold run.
  assert (H0 : oneSendAtATime initialController /\
               turnsAlternate (chat initialController)).
  { split; [right; now split | now exists 0%nat]. }
  revert H0. generalize initialController.
  induction events as [|ev events IH]; intros c [H1 H2]; simpl.
  - exact H2.
  - apply IH. split.
    + now apply step_oneSendAtATime.
    + now apply step_turnsAlternate.
Qed.

Lemma opensWithUserText_app (ms : list Message) (m : Message) :
  ms <> [] -> opensWithUserText ms -> opensWithUserText (ms ++ [m]).
Proof. destruct ms; [congruence | now cbn]. Qed.

Lemma step_opensWithUserText
    (config : ApiConfig) (systemPrompt t_error : string)
    (c : Controller) (ev : ChatEvent) :
  oneSendAtATime c ->
  (loading (chat c) = true -> messages (chat c) <> []) ->
  opensWithUserText (messages (chat c)) ->
  opensWithUserText (messages (chat (step config systemPrompt t_error c ev)))
  /\ (loading (chat (step config systemPrompt t_error c ev)) = true ->
      messages (chat (step config systemPrompt t_error c ev)) <> []).
Proof.
  intros Hone Hne Hopen. destruct ev as [now | text | s e k o].
  - cbn [step chat]. destruct (loading (chat c)) eqn:Hl.
    + rewrite sendMessage_submit_blocked by now left.
      cbn [fst]. rewrite Hl. now split.
    + destruct (input (chat c)) eqn:Hi.
      * rewrite sendMessage_submit_blocked by now right.
        cbn [fst]. rewrite Hl. now split.
      * rewrite sendMessage_submit_idle by congruence.
        cbn [fst messages loading]. split.
        -- destruct (messages (chat c)) as [|m ms] eqn:Hm.
           ++ cbn. split; [reflexivity|]. eexists.
              split; [reflexivity | rewrite Hi; discriminate].
           ++ exact Hopen.
        -- intros _ Habs. now apply app_eq_nil in Habs as [_ Habs].
  - cbn [step chat setInput messages loading]. now split.
  - cbn [step]. destruct (inFlight c) as [|rq rest] eqn:Hf.
    + now split.
    + cbn [chat].
      assert (Hl : loading (chat c) = true).
      { destruct Hone as [[Hl _] | [_ Hnil]]; [exact Hl|].
        rewrite Hf in Hnil. discriminate. }
      unfold sendMessage_settle.
      destruct (receive config s e o); cbn [messages loading setLoading appendMessage].
      * split; [apply opensWithUserText_app; auto | discriminate].
      * split; [apply opensWithUserText_app; auto | discriminate].
Qed.

Lemma run_opensWithUserText
    (config : ApiConfig) (systemPrompt t_error : string)
    (events : list ChatEvent) :
  opensWithUserText (messages (chat (run config systemPrompt t_error events))).
Proof.
  unfold run.
  assert (H0 : oneSendAtATime initialController /\
               (loading (chat initialController) = true ->
                messages (chat initialController) <> []) /\
               opensWithUserText (messages (chat initialController))).
  { split; [right; now split|]. split; [discriminate | exact I]. }
  revert H0. generalize initialController.
  induction events as [|ev events IH]; intros c [H1 [H2 H3]]; simpl.
  - exact H3.
  - apply IH. split; [now apply step_oneSendAtATime|].
    destruct (step_opensWithUserText config systemPrompt t_error c ev H1 H2 H3)
      as [Ha Hb].
    now split.
Qed.

Lemma slice0_length (n : nat) (s : string) :
  (String.length (slice0 n s) <= n)%nat.
Proof.
  unfold slice0. revert s. induction n as [|n IH]; intros s.
  - destruct s; simpl; lia.
  - destruct s as [|c s]; simpl; [lia|]. specialize (IH s). lia.
Qed.

Lemma sessionTitle_of_text (m : Message) (rest : list Message) (text : string) :
  m_role m = "user" -> m_content m = JStr text -> text <> EmptyString ->
  sessionTitle (m :: rest) = Ok (JStr (slice0 50 text))
  /\ slice0 50 text <> EmptyString.
Proof.
  intros Hr Hc Ht. unfold sessionTitle. cbn [find]. rewrite Hr. cbn.
  rewrite Hc. destruct text as [|c text]; [congruence|].
  unfold slice0. cbn. split; [reflexivity | discriminate].
Qed.

(** Over any sequence of submits, edits of the input and settling
    replies - no session being loaded, created or deleted in between -
    a conversation that is not empty opens with the first text the user
    sent, and the record the save effect builds for it has as title the
    first 50 code units of that text: a text that is not empty and at
    most 50 units long.  Building the record throws nothing. *)
Theorem run_session_title
    (config : ApiConfig) (systemPrompt t_error : string)
    (events : list ChatEvent) (sid : string) (now1 now2 : Z) :
  let ms := messages (chat (run config systemPrompt t_error events)) in
  ms <> [] ->
  exists first rest text,
    ms = first :: rest
    /\ m_content first = JStr text
    /\ text <> EmptyString
    /\ sessionToSave ms sid now1 now2 =
       Ok (Some {| id := sid; title := JStr (slice0 50 text);
                   cs_messages := ms; createdAt := now1; updatedAt := now2 |})
    /\ slice0 50 text <> EmptyString
    /\ (String.length (slice0 50 text) <= 50)%nat.
Proof.
  cbv zeta. intros Hne.
  pose proof (run_opensWithUserText config systemPrompt t_error events) as Hopen.
  destruct (messages (chat (run config systemPrompt t_error events)))
    as [|first rest]; [congruence|].
  destruct Hopen as [Hr [text [Hc Ht]]].
  destruct (sessionTitle_of_text first rest text Hr Hc Ht) as [Htitle Hnz].
  exists first, rest, text. repeat split; try assumption.
  - unfold sessionToSave. rewrite Htitle. reflexivity.
  - apply slice0_length.
Qed.

Lemma run_session_title_instance :
  let events := [Typed "hello"; Submitted 1000] in
  let ms := messages (chat (run sampleConfig EmptyString "Error: " events)) in
  ms <> []
  /\ exists first rest text,
       ms = first :: rest
       /\ m_content first = JStr text
       /\ text <> EmptyString
       /\ sessionToSave ms "session-1000" 1001 1002 =
          Ok (Some {| id := "session-1000"; title := JStr (slice0 50 text);
                      cs_messages := ms; createdAt := 1001; updatedAt := 1002 |})
       /\ slice0 50 text <> EmptyString
       /\ (String.length (slice0 50 text) <= 50)%nat.
Proof.
  cbv zeta.
  assert (Hne : messages (chat (run sampleConfig EmptyString "Error: "
                                  [Typed "hello"; Submitted 1000])) <> [])
    by discriminate.
  split; [exact Hne|].
  exact (run_session_title sampleConfig EmptyString "Error: "
           [Typed "hello"; Submitted 1000] "session-1000" 1001 1002 Hne).
Defined.

(** ** The object store *)

Lemma string_compare_refl (s : string) : String.compare s s = Eq.
Proof.
  induction s as [|c s IH]; [reflexivity|]. simpl.
  unfold Ascii.compare. now rewrite N.compare_refl.
Qed.

Lemma ascii_compare_refl (c : ascii) : Ascii.compare c c = Eq.
Proof. unfold Ascii.compare. apply N.compare_refl. Qed.

Lemma ascii_compare_lt_trans (a b c : ascii) :
  Ascii.compare a b = Lt -> Ascii.compare b c = Lt -> Ascii.compare a c = Lt.
Proof.
  unfold Ascii.compare. rewrite !N.compare_lt_iff. apply N.lt_trans.
Qed.

Lemma string_compare_lt_trans (a b c : string) :
  String.compare a b = Lt -> String.compare b c = Lt -> String.compare a c = Lt.
Proof.
  revert b c. induction a as [|x a IH]; intros [|y b] [|z c]; simpl;
    try discriminate; try reflexivity.
  destruct (Ascii.compare x y) eqn:Exy; try discriminate;
    destruct (Ascii.compare y z) eqn:Eyz; try discriminate; intros H1 H2.
  - apply Ascii.compare_eq_iff in Exy, Eyz. subst.
    rewrite ascii_compare_refl. now apply (IH b c).
  - apply Ascii.compare_eq_iff in Exy. subst. now rewrite Eyz.
  - apply Ascii.compare_eq_iff in Eyz. subst. now rewrite Exy.
  - now rewrite (ascii_compare_lt_trans x y z Exy Eyz).
Qed.

Lemma string_compare_Eq_eqb (a b : string) :
  String.compare a b = Eq -> String.eqb a b = true.
Proof. intros H. apply String.compare_eq_iff in H. subst. apply String.eqb_refl. Qed.

Lemma string_compare_neq_eqb (a b : string) :
  String.compare a b <> Eq -> String.eqb a b = false.
Proof.
  intros H. apply String.eqb_neq. intros ->. now rewrite string_compare_refl in H.
Qed.

Lemma getRecord_putRecord (session : ChatSession) (db : SessionDb) (k : string) :
  getRecord k (putRecord session db) =
  if String.eqb k (id session) then Some session else getRecord k db.
Proof.
  unfold getRecord. induction db as [|x rest IH]; cbn [putRecord find].
  - rewrite (String.eqb_sym (id session) k). now destruct (String.eqb k (id session)).
  - destruct (String.compare (id session) (id x)) eqn:E; cbn [find].
    + apply String.compare_eq_iff in E. rewrite <- E.
      rewrite (String.eqb_sym (id session) k).
      now destruct (String.eqb k (id session)).
    + rewrite (String.eqb_sym (id session) k).
      now destruct (String.eqb k (id session)).
    + rewrite IH. destruct (String.eqb k (id session)) eqn:Ek; [|reflexivity].
      apply String.eqb_eq in Ek. subst k.
      rewrite String.eqb_sym, string_compare_neq_eqb; [reflexivity | congruence].
Qed.

Lemma getRecord_deleteRecord (k k' : string) (db : SessionDb) :
  getRecord k' (deleteRecord k db) =
  if String.eqb k' k then None else getRecord k' db.
Proof.
  unfold getRecord, deleteRecord. induction db as [|x rest IH]; cbn [filter find].
  - now destruct (String.eqb k' k).
  - destruct (String.eqb (id x) k) eqn:Ex; cbn [negb find].
    + rewrite IH. destruct (String.eqb k' k) eqn:Ek; [reflexivity|].
      apply String.eqb_eq in Ex. rewrite Ex, String.eqb_sym, Ek. reflexivity.
    + rewrite IH. destruct (String.eqb k' k) eqn:Ek; [|reflexivity].
      apply String.eqb_eq in Ek. subst k'. now rewrite Ex.
Qed.

Lemma deleteRecord_missing (k : string) (db : SessionDb) :
  getRecord k db = None -> deleteRecord k db = db.
Proof.
  unfold getRecord, deleteRecord. induction db as [|x rest IH]; cbn [filter find].
  - reflexivity.
  - destruct (String.eqb (id x) k); [discriminate|].
    intros H. cbn [negb]. now rewrite IH.
Qed.

(** [put] then [get]: the record written is the record read, under its
    own key; every other key reads as before.  Writing is what
    [saveChatSession] does on the store seen as a map. *)
Theorem put_then_get (session : ChatSession) (db : SessionDb) :
  getRecord (id session) (putRecord session db) = Some session
  /\ (forall k, k <> id session ->
        getRecord k (putRecord session db) = getRecord k db)
  /\ (forall k, loadChatSession k (storeOf (putRecord session db)) =
                loadChatSession k (saveChatSession session (storeOf db))).
Proof.
  split; [|split].
  - now rewrite getRecord_putRecord, String.eqb_refl.
  - intros k Hk. rewrite getRecord_putRecord.
    now apply String.eqb_neq in Hk as ->.
  - intros k. unfold loadChatSession, storeOf, saveChatSession.
    apply getRecord_putRecord.
Qed.

(** [delete] then [get] finds nothing under the key and leaves every
    other key as it was; deleting a key that is not stored leaves the
    store unchanged.  Deleting is what [deleteChatSession] does on the
    store seen as a map. *)
Theorem delete_then_get (k : string) (db : SessionDb) :
  getRecord k (deleteRecord k db) = None
  /\ (forall k', k' <> k ->
        getRecord k' (deleteRecord k db) = getRecord k' db)
  /\ (getRecord k db = None -> deleteRecord k db = db)
  /\ (forall k', loadChatSession k' (storeOf (deleteRecord k db)) =
                 loadChatSession k' (deleteChatSession k (storeOf db))).
Proof.
  split; [|split; [|split]].
  - now rewrite getRecord_deleteRecord, String.eqb_refl.
  - intros k' Hk. rewrite getRecord_deleteRecord.
    now apply String.eqb_neq in Hk as ->.
  - apply deleteRecord_missing.
  - intros k'. unfold loadChatSession, storeOf, deleteChatSession.
    apply getRecord_deleteRecord.
Qed.

Lemma putRecord_same_key (s1 s2 : ChatSession) (db : SessionDb) :
  id s1 = id s2 -> putRecord s2 (putRecord s1 db) = putRecord s2 db.
Proof.
  intros Hid. induction db as [|x rest IH]; cbn [putRecord].
  - now rewrite <- Hid, string_compare_refl.
  - rewrite <- Hid.
    destruct (String.compare (id s1) (id x)) eqn:E; cbn [putRecord]; rewrite <- ?Hid.
    + now rewrite string_compare_refl.
    + now rewrite string_compare_refl.
    + rewrite E. now rewrite IH.
Qed.

(** Writing twice under one key keeps the last record only: the store
    is the one a single write of that record gives.  In particular a
    repeated write of the same record changes nothing. *)
Theorem put_last_write_wins (s1 s2 : ChatSession) (db : SessionDb) :
  id s1 = id s2 ->
  putRecord s2 (putRecord s1 db) = putRecord s2 db.
Proof. apply putRecord_same_key. Qed.

Lemma put_last_write_wins_instance :
  id sampleSaved = id sampleSavedAgain
  /\ putRecord sampleSavedAgain (putRecord sampleSaved [sampleOther])
     = putRecord sampleSavedAgain [sampleOther].
Proof.
  split; [reflexivity|].
  exact (put_last_write_wins sampleSaved sampleSavedAgain [sampleOther] eq_refl).
Defined.

Lemma Forall_putRecord (P : ChatSession -> Prop) (session : ChatSession)
    (db : SessionDb) :
  P session -> Forall P db -> Forall P (putRecord session db).
Proof.
  intros Hs. induction db as [|x rest IH]; intros Hdb; cbn [putRecord].
  - now constructor.
  - inversion Hdb as [|? ? Hx Hrest]; subst.
    destruct (String.compare (id session) (id x)).
    + now constructor.
    + constructor; [exact Hs | exact Hdb].
    + constructor; [exact Hx | now apply IH].
Qed.

Lemma keysIncreasing_putRecord (session : ChatSession) (db : SessionDb) :
  keysIncreasing db -> keysIncreasing (putRecord session db).
Proof.
  unfold keysIncreasing. induction db as [|x rest IH]; intros Hdb; cbn [putRecord].
  - constructor; constructor.
  - apply StronglySorted_inv in Hdb. destruct Hdb as [Hrest Hx].
    destruct (String.compare (id session) (id x)) eqn:E.
    + apply String.compare_eq_iff in E. constructor; [exact Hrest|].
      now rewrite E.
    + constructor; [now constructor|].
      constructor; [exact E|].
      eapply Forall_impl; [|exact Hx]. cbn. intros y Hy.
      now apply (string_compare_lt_trans _ (id x)).
    + constructor; [now apply IH|].
      apply Forall_putRecord; [|exact Hx].
      rewrite String.compare_antisym, E. reflexivity.
Qed.

Lemma keysIncreasing_deleteRecord (k : string) (db : SessionDb) :
  keysIncreasing db -> keysIncreasing (deleteRecord k db).
Proof.
  unfold keysIncreasing, deleteRecord.
  induction db as [|x rest IH]; intros Hdb; cbn [filter]; [constructor|].
  apply StronglySorted_inv in Hdb. destruct Hdb as [Hrest Hx].
  destruct (negb (String.eqb (id x) k)); [|now apply IH].
  constructor; [now apply IH|].
  apply Forall_forall. intros y Hy. apply filter_In in Hy.
  rewrite Forall_forall in Hx. now apply Hx.
Qed.

Lemma keysIncreasing_NoDup (db : SessionDb) :
  keysIncreasing db -> NoDup (map id db).
Proof.
  unfold keysIncreasing. induction db as [|x rest IH]; intros Hdb; cbn [map].
  - constructor.
  - apply StronglySorted_inv in Hdb. destruct Hdb as [Hrest Hx].
    constructor; [|now apply IH].
    intros Hin. apply in_map_iff in Hin. destruct Hin as [y [Hy Hin]].
    rewrite Forall_forall in Hx. specialize (Hx y Hin).
    rewrite <- Hy, string_compare_refl in Hx. discriminate.
Qed.

Lemma insertByRecency_perm (x : ChatSession) (l : list ChatSession) :
  Permutation (x :: l) (insertByRecency x l).
Proof.
  induction l as [|y rest IH]; cbn [insertByRecency]; [apply Permutation_refl|].
  destruct (updatedAt y <=? updatedAt x)%Z; [apply Permutation_refl|].
  eapply Permutation_trans; [apply perm_swap|]. now apply perm_skip.
Qed.

Lemma loadAllChatSessions_perm (db : SessionDb) :
  Permutation db (loadAllChatSessions db).
Proof.
  unfold loadAllChatSessions. induction db as [|x rest IH]; cbn [fold_right].
  - apply Permutation_refl.
  - eapply Permutation_trans; [|apply insertByRecency_perm]. now apply perm_skip.
Qed.

Lemma insertByRecency_sorted (x : ChatSession) (l : list ChatSession) :
  byRecency l -> byRecency (insertByRecency x l).
Proof.
  unfold byRecency. induction l as [|y rest IH]; intros Hl; cbn [insertByRecency].
  - constructor; constructor.
  - destruct (updatedAt y <=? updatedAt x)%Z eqn:E.
    + apply Z.leb_le in E. constructor; [exact Hl|].
      apply StronglySorted_inv in Hl. destruct Hl as [_ Hy].
      constructor; [exact E|].
      eapply Forall_impl; [|exact Hy]. cbn. intros z Hz. lia.
    + apply Z.leb_gt in E.
      apply StronglySorted_inv in Hl. destruct Hl as [Hrest Hy].
      constructor; [now apply IH|].
      eapply Permutation_Forall; [apply insertByRecency_perm|].
      constructor; [lia | exact Hy].
Qed.

Lemma loadAllChatSessions_sorted (db : SessionDb) :
  byRecency (loadAllChatSessions db).
Proof.
  unfold loadAllChatSessions. induction db as [|x rest IH]; cbn [fold_right].
  - constructor.
  - now apply insertByRecency_sorted.
Qed.

Lemma insertByRecency_filter (t : Z) (x : ChatSession) (l : list ChatSession) :
  filter (fun s => (updatedAt s =? t)%Z) (insertByRecency x l) =
  filter (fun s => (updatedAt s =? t)%Z) (x :: l).
Proof.
  induction l as [|y rest IH]; cbn [insertByRecency]; [reflexivity|].
  destruct (updatedAt y <=? updatedAt x)%Z eqn:E; [reflexivity|].
  apply Z.leb_gt in E. cbn [filter] in *.
  destruct (updatedAt y =? t)%Z eqn:Ey.
  - apply Z.eqb_eq in Ey.
    destruct (updatedAt x =? t)%Z eqn:Ex; [apply Z.eqb_eq in Ex; lia|].
    now rewrite IH.
  - exact IH.
Qed.

(** The listing holds exactly the stored records, each once, most
    recent first; records updated at the same instant keep the order
    of their keys. *)
Theorem listing_most_recent_first (db : SessionDb) :
  Permutation db (loadAllChatSessions db)
  /\ byRecency (loadAllChatSessions db)
  /\ forall t,
       filter (fun s => (updatedAt s =? t)%Z) (loadAllChatSessions db) =
       filter (fun s => (updatedAt s =? t)%Z) db.
Proof.
  split; [apply loadAllChatSessions_perm|].
  split; [apply loadAllChatSessions_sorted|].
  intros t. unfold loadAllChatSessions.
  induction db as [|x rest IH]; cbn [fold_right]; [reflexivity|].
  rewrite insertByRecency_filter. cbn [filter]. now rewrite IH.
Qed.

(** Writes and deletions keep the keys of the store strictly
    increasing, so that no session id is ever listed twice. *)
Theorem keys_stay_unique (session : ChatSession) (k : string) (db : SessionDb) :
  keysIncreasing db ->
  keysIncreasing (putRecord session db)
  /\ keysIncreasing (deleteRecord k db)
  /\ NoDup (map id (loadAllChatSessions (putRecord session db)))
  /\ NoDup (map id (loadAllChatSessions (deleteRecord k db))).
Proof.
  intros Hdb.
  pose proof (keysIncreasing_putRecord session db Hdb) as Hp.
  pose proof (keysIncreasing_deleteRecord k db Hdb) as Hd.
  split; [exact Hp|]. split; [exact Hd|]. split.
  - eapply Permutation_NoDup;
      [apply Permutation_map, loadAllChatSessions_perm|].
    now apply keysIncreasing_NoDup.
  - eapply Permutation_NoDup;
      [apply Permutation_map, loadAllChatSessions_perm|].
    now apply keysIncreasing_NoDup.
Qed.

Lemma keys_stay_unique_instance :
  keysIncreasing [sampleSaved; sampleOther]
  /\ keysIncreasing (putRecord sampleSavedAgain [sampleSaved; sampleOther])
  /\ keysIncreasing (deleteRecord "session-3000" [sampleSaved; sampleOther])
  /\ NoDup (map id (loadAllChatSessions
                      (putRecord sampleSavedAgain [sampleSaved; sampleOther])))
  /\ NoDup (map id (loadAllChatSessions
                      (deleteRecord "session-3000" [sampleSaved; sampleOther]))).
Proof.
  assert (H : keysIncreasing [sampleSaved; sampleOther]).
  { repeat constructor. }
  split; [exact H|].
  exact (keys_stay_unique sampleSavedAgain "session-3000"
           [sampleSaved; sampleOther] H).
Defined.

(** The listing of the sample store after the second save. *)
Example listing_after_two_saves :
  map id (loadAllChatSessions
            (putRecord sampleSavedAgain (putRecord sampleOther [sampleSaved])))
  = ["session-1000"; "session-3000"].
Proof. reflexivity. Qed.

(** ** Sessions: saving, loading, deleting *)

Lemma saveEffect_written (now1 now2 : Z) (db db' : SessionDb) (v v' : ChatView) :
  saveEffect now1 now2 db v = Ok (db', v') ->
  messages (cv_chat v) <> [] ->
  exists session,
    db' = putRecord session db
    /\ id session = cv_currentSessionId v
    /\ cs_messages session = messages (cv_chat v)
    /\ cv_chatSessions v' = loadAllChatSessions db'
    /\ cv_chat v' = cv_chat v
    /\ cv_currentSessionId v' = cv_currentSessionId v.
Proof.
  unfold saveEffect. intros H Hne.
  destruct (sessionToSave (messages (cv_chat v)) (cv_currentSessionId v) now1 now2)
    as [[session|]|e] eqn:E; cbn [bind] in H; try discriminate.
  - injection H as <- <-. exists session.
    apply sessionToSave_fields in E. destruct E as [Hid [Hms _]].
    repeat split; assumption.
  - unfold sessionToSave in E.
    destruct (messages (cv_chat v)); [congruence|].
    destruct (sessionTitle (m :: l)); cbn [bind] in E; discriminate.
Qed.

(** A conversation written by the save effect is the conversation
    [loadSession] brings back: the same messages under the same id,
    whatever was shown before; and the refreshed listing holds its
    record. *)
Theorem saved_conversation_is_restored
    (now1 now2 : Z) (db db' : SessionDb) (v v' shown : ChatView) :
  saveEffect now1 now2 db v = Ok (db', v') ->
  messages (cv_chat v) <> [] ->
  let restored := loadSession (cv_currentSessionId v) db' shown in
  messages (cv_chat restored) = messages (cv_chat v)
  /\ cv_currentSessionId restored = cv_currentSessionId v
  /\ input (cv_chat restored) = input (cv_chat shown)
  /\ loading (cv_chat restored) = loading (cv_chat shown)
  /\ exists session,
       In session (cv_chatSessions v')
       /\ id session = cv_currentSessionId v
       /\ cs_messages session = messages (cv_chat v).
Proof.
  intros H Hne. cbv zeta.
  destruct (saveEffect_written now1 now2 db db' v v' H Hne)
    as [session [Hdb [Hid [Hms [Hlist _]]]]].
  unfold loadSession.
  assert (Hget : getRecord (cv_currentSessionId v) db' = Some session)
    by (rewrite Hdb, <- Hid, getRecord_putRecord, String.eqb_refl; reflexivity).
  rewrite Hget. cbn.
  repeat split; try assumption.
  exists session. repeat split; try assumption.
  rewrite Hlist. eapply Permutation_in; [apply loadAllChatSessions_perm|].
  rewrite Hdb. clear. induction db as [|x rest IH]; cbn [putRecord].
  - now left.
  - destruct (String.compare (id session) (id x)); [now left | now left | now right].
Qed.

Lemma saved_conversation_is_restored_instance :
  let v := {| cv_chat := {| messages := [userSays "hello" 1000];
                            input := EmptyString; loading := true |};
              cv_currentSessionId := "session-1000";
              cv_chatSessions := [] |} in
  let db' := [sampleSaved; sampleOther] in
  let v' := {| cv_chat := cv_chat v;
               cv_currentSessionId := "session-1000";
               cv_chatSessions := [sampleOther; sampleSaved] |} in
  (saveEffect 1000 1000 [sampleOther] v = Ok (db', v') /\
   messages (cv_chat v) <> [])
  /\ messages (cv_chat (loadSession "session-1000" db' (initialView 9000)))
     = [userSays "hello" 1000]
  /\ cv_currentSessionId (loadSession "session-1000" db' (initialView 9000))
     = "session-1000".
Proof.
  cbv zeta.
  assert (H1 : saveEffect 1000 1000 [sampleOther]
                 {| cv_chat := {| messages := [userSays "hello" 1000];
                                  input := EmptyString; loading := true |};
                    cv_currentSessionId := "session-1000";
                    cv_chatSessions := [] |}
               = Ok ([sampleSaved; sampleOther],
                     {| cv_chat := {| messages := [userSays "hello" 1000];
                                      input := EmptyString; loading := true |};
                        cv_currentSessionId := "session-1000";
                        cv_chatSessions := [sampleOther; sampleSaved] |}))
    by reflexivity.
  assert (H2 : messages {| messages := [userSays "hello" 1000];
                           input := EmptyString; loading := true |} <> [])
    by discriminate.
  split; [split; [exact H1 | exact H2]|].
  pose proof (saved_conversation_is_restored 1000 1000 [sampleOther] _ _ _
                (initialView 9000) H1 H2) as H.
  cbv zeta in H. destruct H as [Ha [Hb _]].
  split; [exact Ha | exact Hb].
Defined.

Lemma sessionToSave_empty (sid : string) (now1 now2 : Z) :
  sessionToSave [] sid now1 now2 = Ok None.
Proof. reflexivity. Qed.


(** ** The catalog and the form *)

(** A catalog fetch that fails - [fetch] rejects, or the list response
    is not ok - clears the models shown, shows the description of the
    failure (for a response that is not ok: its status and text),
    leaves the configuration alone and ends the loading state. *)
Theorem failed_catalog_fetch
    (nts : float -> string) (config : ApiConfig)
    (listing : Result ListResponse)
    (detailOf : nat -> Result DetailResponse) (st : SettingsState) :
  (forall res, listing = Ok res -> lr_ok res = false) ->
  let r := fetchModels nts config listing detailOf st in
  availableModels (fst r) = []
  /\ modelsError (fst r) = String_of (catalogFailureOf listing)
  /\ loadingModels (fst r) = false
  /\ snd r = None.
Proof.
  intros Hfail. cbv zeta. unfold fetchModels.
  assert (H : modelInfos nts config listing detailOf =
              Throw (catalogFailureOf listing)).
  { unfold modelInfos, catalogFailureOf. destruct listing as [res|e]; cbn [bind].
    - rewrite (Hfail res eq_refl). cbn [negb]. now destruct (lr_text res).
    - reflexivity. }
  rewrite H. repeat split.
Qed.

Lemma failed_catalog_fetch_instance :
  let listing := Ok {| lr_ok := false; lr_status := 401;
                       lr_statusText := "Unauthorized";
                       lr_text := Ok EmptyString;
                       lr_json := Throw (Rejection "SyntaxError") |} in
  (forall res, listing = Ok res -> lr_ok res = false)
  /\ modelsError (fst (fetchModels noNumberText sampleConfig listing
                         sampleDetails sampleSettings))
     = "Error: HTTP 401: Unauthorized".
Proof.
  cbv zeta.
  assert (H : forall res,
             Ok {| lr_ok := false; lr_status := 401;
                   lr_statusText := "Unauthorized";
                   lr_text := Ok EmptyString;
                   lr_json := Throw (Rejection "SyntaxError") |} = Ok res ->
             lr_ok res = false).
  { intros res Hres. injection Hres as <-. reflexivity. }
  split; [exact H|].
  exact (proj1 (proj2 (failed_catalog_fetch noNumberText sampleConfig _
                         sampleDetails sampleSettings H))).
Defined.

(** For every provider but ollama the catalog is the list of ids of the
    response, in its order, each classified by its identifier alone;
    no detail lookup has any influence on it. *)
Theorem catalog_by_identifier
    (nts : float -> string) (config : ApiConfig)
    (res : ListResponse) (data : ListBody)
    (detailOf detailOf' : nat -> Result DetailResponse) (st : SettingsState) :
  provider config <> ollama ->
  lr_ok res = true -> lr_json res = Ok data ->
  let ids := match lb_data data with Some l => l | None => [] end in
  let r := fetchModels nts config (Ok res) detailOf st in
  availableModels (fst r) =
    map (fun i => {| mi_id := i; supportsReasoning := isReasoningModel (Some i) |}) ids
  /\ map mi_id (availableModels (fst r)) = ids
  /\ modelsError (fst r) = EmptyString
  /\ fetchModels nts config (Ok res) detailOf' st = r.
Proof.
  intros Hp Hok Hjson. cbv zeta. unfold fetchModels, modelInfos. cbn [bind].
  rewrite Hok, Hjson. cbn [negb bind].
  destruct (provider config); try congruence; cbn;
    (repeat split; rewrite map_map; cbn; apply map_id).
Qed.

Lemma catalog_by_identifier_instance :
  (provider sampleLmstudio <> ollama /\ lr_ok sampleIdsList = true /\
   lr_json sampleIdsList = Ok sampleIdsBody)
  /\ availableModels (fst (fetchModels noNumberText sampleLmstudio
                             (Ok sampleIdsList) sampleDetails sampleSettings))
     = [ {| mi_id := "gpt-oss-20b"; supportsReasoning := true |};
         {| mi_id := "llama3"; supportsReasoning := false |} ].
Proof.
  assert (Hp : provider sampleLmstudio <> ollama) by discriminate.
  split; [repeat split; exact Hp|].
  exact (proj1 (catalog_by_identifier noNumberText sampleLmstudio
                  sampleIdsList sampleIdsBody
                  sampleDetails sampleDetails sampleSettings
                  Hp eq_refl eq_refl)).
Defined.

Lemma modelInfoOf_honours (nts : float -> string) (name : string)
    (outcome : Result DetailResponse) :
  honoursIdentifier (modelInfoOf nts name outcome).
Proof.
  unfold honoursIdentifier. rewrite modelInfoOf_id, modelInfoOf_classification.
  intros H. destruct (usableDetail nts outcome) as [[mf ps]|]; [|exact H].
  rewrite H. apply orb_true_r.
Qed.

Lemma mapi_from_Forall {A B} (P : B -> Prop) (f : nat -> A -> B) (l : list A) :
  (forall i x, P (f i x)) -> forall k, Forall P (mapi_from f k l).
Proof.
  intros H. induction l as [|x l IH]; intros k; cbn; constructor; auto.
Qed.

Lemma modelInfos_honour (nts : float -> string) (config : ApiConfig)
    (listing : Result ListResponse)
    (detailOf : nat -> Result DetailResponse) (infos : list ModelInfo) :
  modelInfos nts config listing detailOf = Ok infos ->
  Forall honoursIdentifier infos.
Proof.
  unfold modelInfos. destruct listing as [res|e]; cbn [bind]; [|discriminate].
  destruct (lr_ok res); cbn [negb].
  - destruct (lr_json res) as [data|e]; cbn [bind]; [|discriminate].
    destruct (provider config); intros H; injection H as <-;
      try (apply Forall_forall; intros i Hi; apply in_map_iff in Hi;
           destruct Hi as [x [<- _]]; intros Hx; exact Hx).
    apply mapi_from_Forall. intros i x. apply modelInfoOf_honours.
  - destruct (lr_text res); cbn [bind]; discriminate.
Qed.

(** In every catalog the fetch produces, a model whose identifier is
    reasoning-capable is marked reasoning-capable: a detail lookup can
    add the mark, never take it away. *)
Theorem catalog_honours_identifier
    (nts : float -> string) (config : ApiConfig)
    (listing : Result ListResponse)
    (detailOf : nat -> Result DetailResponse) (st : SettingsState)
    (infos : list ModelInfo) :
  modelInfos nts config listing detailOf = Ok infos ->
  availableModels (fst (fetchModels nts config listing detailOf st)) = infos
  /\ forall info, In info infos ->
       isReasoningModel (Some (mi_id info)) = true ->
       supportsReasoning info = true.
Proof.
  intros H. split.
  - unfold fetchModels. now rewrite H.
  - intros info Hin. apply modelInfos_honour in H.
    rewrite Forall_forall in H. now apply H.
Qed.

Lemma catalog_honours_identifier_instance :
  modelInfos noNumberText sampleConfig (Ok sampleList) sampleDetails =
  Ok [ {| mi_id := "llama3"; supportsReasoning := false |};
       {| mi_id := "deepseek-r1:8b"; supportsReasoning := true |};
       {| mi_id := "qwen3"; supportsReasoning := true |} ]
  /\ forall info,
       In info [ {| mi_id := "llama3"; supportsReasoning := false |};
                 {| mi_id := "deepseek-r1:8b"; supportsReasoning := true |};
                 {| mi_id := "qwen3"; supportsReasoning := true |} ] ->
       isReasoningModel (Some (mi_id info)) = true ->
       supportsReasoning info = true.
Proof.
  split; [reflexivity|].
  exact (proj2 (catalog_honours_identifier noNumberText sampleConfig
                  (Ok sampleList) sampleDetails sampleSettings _ eq_refl)).
Defined.

Lemma find_listed (infos : list ModelInfo) (m : string) :
  In m (map mi_id infos) ->
  exists i, find (fun i => String.eqb (mi_id i) m) infos = Some i.
Proof.
  induction infos as [|x rest IH]; cbn [map In find]; [contradiction|].
  intros [H | H].
  - rewrite H, String.eqb_refl. now exists x.
  - destruct (String.eqb (mi_id x) m); [now exists x | now apply IH].
Qed.

(** Whenever a request carries a reasoning field and the selected model
    is in the catalog, the catalog marks that model reasoning-capable:
    the effort sent is one the form let the user choose. *)
Theorem effort_sent_was_selectable
    (nts : float -> string) (config : ApiConfig) (systemPrompt : string)
    (prior : list Message) (userInput : string)
    (listing : Result ListResponse)
    (detailOf : nat -> Result DetailResponse)
    (infos : list ModelInfo) (e : string) :
  modelInfos nts config listing detailOf = Ok infos ->
  sentEffort (requestBody config systemPrompt prior userInput) = Some e ->
  (forall m, model config = Some m -> In m (map mi_id infos)) ->
  effortSelectable infos (model config) = true.
Proof.
  intros Hinfos Hsent Hlisted.
  rewrite sentEffort_requestBody in Hsent.
  assert (Heff : effortInUse config = Some e)
    by (destruct (provider config); congruence).
  apply effortInUse_Some in Heff. destruct Heff as [Hcap _].
  destruct (model config) as [m|] eqn:Em; [|discriminate].
  destruct (find_listed infos m (Hlisted m eq_refl)) as [i Hi].
  unfold effortSelectable. rewrite Hi.
  apply find_some in Hi. destruct Hi as [Hin Heq].
  apply String.eqb_eq in Heq.
  apply modelInfos_honour in Hinfos. rewrite Forall_forall in Hinfos.
  apply (Hinfos i Hin). now rewrite Heq.
Qed.

Lemma effort_sent_was_selectable_instance :
  modelInfos noNumberText sampleConfig (Ok sampleList) sampleDetails =
  Ok [ {| mi_id := "llama3"; supportsReasoning := false |};
       {| mi_id := "deepseek-r1:8b"; supportsReasoning := true |};
       {| mi_id := "qwen3"; supportsReasoning := true |} ]
  /\ sentEffort (requestBody sampleConfig EmptyString [] "hello") = Some "high"
  /\ effortSelectable
       [ {| mi_id := "llama3"; supportsReasoning := false |};
         {| mi_id := "deepseek-r1:8b"; supportsReasoning := true |};
         {| mi_id := "qwen3"; supportsReasoning := true |} ]
       (model sampleConfig) = true.
Proof.
  split; [reflexivity|]. split; [reflexivity|].
  apply (effort_sent_was_selectable noNumberText sampleConfig EmptyString []
           "hello" (Ok sampleList) sampleDetails _ "high" eq_refl eq_refl).
  intros m Hm. injection Hm as <-. right. left. reflexivity.
Defined.

Lemma modelInfos_provider (nts : float -> string) (c1 c2 : ApiConfig)
    (listing : Result ListResponse) (detailOf : nat -> Result DetailResponse) :
  provider c1 = provider c2 ->
  modelInfos nts c1 listing detailOf = modelInfos nts c2 listing detailOf.
Proof. intros H. unfold modelInfos. now rewrite H. Qed.

Lemma selectModel_listed (config : ApiConfig) (infos : list ModelInfo) :
  infos <> [] ->
  let after := match selectModel config infos with Some c => c | None => config end in
  provider after = provider config
  /\ (exists m, model after = Some m /\ In m (map mi_id infos))
  /\ match selectModel after infos with Some c => c | None => after end = after.
Proof.
  intros Hne. destruct infos as [|first rest]; [congruence|]. cbv zeta.
  destruct (selectModel config (first :: rest)) as [c|] eqn:Esel.
  - unfold selectModel in Esel.
    destruct (modelUnset (model config)
              || negb (listsModel (map mi_id (first :: rest)) (model config)));
      [|discriminate].
    injection Esel as <-. cbn [provider model]. split; [reflexivity|]. split.
    + exists (mi_id first). split; [reflexivity | now left].
    + unfold selectModel. cbn [model endpoint apiKey provider reasoningEffort].
      now destruct (modelUnset (Some (mi_id first))
                    || negb (listsModel (map mi_id (first :: rest))
                               (Some (mi_id first)))).
  - rewrite Esel. split; [reflexivity|]. split; [|reflexivity].
    unfold selectModel in Esel.
    destruct (modelUnset (model config)
              || negb (listsModel (map mi_id (first :: rest)) (model config)))
      eqn:Eb; [discriminate|].
    apply orb_false_iff in Eb. destruct Eb as [Hu Hl].
    apply negb_false_iff in Hl.
    destruct (model config) as [m|]; [|discriminate].
    exists m. split; [reflexivity | now apply listsModel_In].
Qed.

(** After a successful fetch that returns at least one model, the
    configured model is one of the returned identifiers; and fetching
    the same catalog again under the resulting configuration changes
    nothing. *)
Theorem fetch_leaves_model_listed
    (nts : float -> string) (config : ApiConfig)
    (listing : Result ListResponse)
    (detailOf : nat -> Result DetailResponse) (st st' : SettingsState)
    (infos : list ModelInfo) :
  modelInfos nts config listing detailOf = Ok infos ->
  infos <> [] ->
  let after := configAfter config (fetchModels nts config listing detailOf st) in
  (exists m, model after = Some m /\ In m (map mi_id infos))
  /\ configAfter after (fetchModels nts after listing detailOf st') = after.
Proof.
  intros Hinfos Hne. cbv zeta.
  destruct (selectModel_listed config infos Hne) as [Hp [Hin Hstable]].
  assert (Hafter : configAfter config (fetchModels nts config listing detailOf st)
                   = match selectModel config infos with
                     | Some c => c | None => config end).
  { unfold configAfter, fetchModels. now rewrite Hinfos. }
  rewrite Hafter. split; [exact Hin|].
  unfold configAfter, fetchModels.
  rewrite (modelInfos_provider nts _ config listing detailOf Hp), Hinfos.
  cbn [snd]. exact Hstable.
Qed.

Lemma fetch_leaves_model_listed_instance :
  let config := {| endpoint := "http://localhost:11434"; apiKey := EmptyString;
                   provider := ollama; model := Some "mistral";
                   reasoningEffort := None |} in
  let infos := [ {| mi_id := "llama3"; supportsReasoning := false |};
                 {| mi_id := "deepseek-r1:8b"; supportsReasoning := true |};
                 {| mi_id := "qwen3"; supportsReasoning := true |} ] in
  (modelInfos noNumberText config (Ok sampleList) sampleDetails = Ok infos /\
   infos <> [])
  /\ exists m,
       model (configAfter config
                (fetchModels noNumberText config (Ok sampleList)
                   sampleDetails sampleSettings)) = Some m
       /\ In m (map mi_id infos).
Proof.
  cbv zeta.
  assert (Hne : [ {| mi_id := "llama3"; supportsReasoning := false |};
                  {| mi_id := "deepseek-r1:8b"; supportsReasoning := true |};
                  {| mi_id := "qwen3"; supportsReasoning := true |} ] <> [])
    by discriminate.
  split; [split; [reflexivity | exact Hne]|].
  exact (proj1 (fetch_leaves_model_listed noNumberText
                  {| endpoint := "http://localhost:11434"; apiKey := EmptyString;
                     provider := ollama; model := Some "mistral";
                     reasoningEffort := None |}
                  (Ok sampleList) sampleDetails sampleSettings sampleSettings
                  _ eq_refl Hne)).
Defined.

Lemma nonEmpty_defaultEndpoints (p : Provider) :
  nonEmpty (defaultEndpoints p) = true.
Proof. now destruct p. Qed.

(** Switching the provider in the form clears the model and sets the
    default endpoint of the new provider, keeping the key and the
    effort.  A request built from that configuration names the default
    model of the new provider and carries no reasoning field.  The
    catalog effect the switch triggers then decides: when it shows a
    non-empty catalog, the model becomes its first entry, whatever was
    configured before the switch; when it shows none - the fetch
    failed, returned nothing, or was skipped for a missing OpenAI key -
    the model stays unset and requests keep naming the default model
    without a reasoning field. *)
Theorem provider_switch_then_catalog
    (nts : float -> string) (config : ApiConfig) (newProvider : Provider)
    (listing : Result ListResponse)
    (detailOf : nat -> Result DetailResponse) (st : SettingsState)
    (systemPrompt : string) (prior : list Message) (userInput : string) :
  let switched := changeProvider config newProvider in
  let default :=
    match newProvider with ollama => "llama2" | _ => "gpt-3.5-turbo" end in
  let r := catalogEffect nts switched listing detailOf st in
  let after := configAfter switched r in
  (rb_model (requestBody switched systemPrompt prior userInput) = default
   /\ sentEffort (requestBody switched systemPrompt prior userInput) = None)
  /\ provider after = newProvider
  /\ endpoint after = defaultEndpoints newProvider
  /\ apiKey after = apiKey config
  /\ reasoningEffort after = reasoningEffort config
  /\ match availableModels (fst r) with
     | first :: _ => model after = Some (mi_id first)
     | [] =>
         model after = None
         /\ rb_model (requestBody after systemPrompt prior userInput) = default
         /\ sentEffort (requestBody after systemPrompt prior userInput) = None
     end.
Proof.
  cbv zeta. split; [now destruct newProvider|].
  unfold catalogEffect.
  cbn [changeProvider endpoint provider apiKey].
  rewrite nonEmpty_defaultEndpoints. cbn [negb].
  destruct (Provider_eqb newProvider openai && negb (nonEmpty (apiKey config))).
  - cbn. repeat split; now destruct newProvider.
  - unfold fetchModels.
    destruct (modelInfos nts (changeProvider config newProvider) listing detailOf)
      as [infos|e].
    + cbn [fst snd availableModels setLoadingModels setAvailableModels].
      destruct infos as [|first rest].
      * cbn. repeat split; now destruct newProvider.
      * cbn. repeat split.
    + cbn. repeat split; now destruct newProvider.
Qed.

(** ** The parameters text of a detail *)

Lemma escapeUnit_letter (c : ascii) :
  lowersToLetter c = true -> escapeUnit c = String c EmptyString.
Proof.
  destruct c as [[] [] [] [] [] [] [] []]; vm_compute;
    intros H; try reflexivity; discriminate H.
Qed.

Lemma escapeUnits_letters (w : string) :
  lettersOnly w = true -> escapeUnits w = w.
Proof.
  induction w as [|c w IH]; cbn [lettersOnly escapeUnits]; [reflexivity|].
  intros H. apply andb_true_iff in H. destruct H as [Hc Hw].
  rewrite (escapeUnit_letter c Hc), (IH Hw). reflexivity.
Qed.

Lemma escapeUnits_append (a b : string) :
  escapeUnits (a ++ b) = (escapeUnits a ++ escapeUnits b)%string.
Proof.
  induction a as [|c a IH]; cbn [escapeUnits String.append]; [reflexivity|].
  rewrite IH. clear. induction (escapeUnit c) as [|x e IH]; cbn; [reflexivity|].
  now rewrite IH.
Qed.

Lemma toLowerCase_split (s x y : string) :
  toLowerCase s = (x ++ y)%string ->
  exists a b, s = (a ++ b)%string /\ toLowerCase a = x /\ toLowerCase b = y.
Proof.
  revert s. induction x as [|c x IH]; intros s H.
  - exists EmptyString, s. now repeat split.
  - destruct s as [|d s]; [discriminate|]. cbn in H. injection H as Hc Hs.
    destruct (IH s Hs) as [a [b [-> [Ha Hb]]]].
    exists (String d a), b. cbn. now rewrite Hc, Ha.
Qed.

Lemma lettersOnly_toLowerCase (w : string) :
  lettersOnly (toLowerCase w) = true -> lettersOnly w = true.
Proof.
  induction w as [|c w IH]; cbn [toLowerCase lettersOnly]; [reflexivity|].
  intros H. apply andb_true_iff in H. destruct H as [Hc Hw].
  rewrite (IH Hw), andb_true_r. revert Hc. clear.
  destruct c as [[] [] [] [] [] [] [] []]; vm_compute; intros H;
    try reflexivity; discriminate H.
Qed.

(** Escaping does not hide a word of letters: if the lowercased text
    contains it, so does the lowercased escaped text. *)
Lemma includes_escapeUnits (s word : string) :
  lettersOnly word = true ->
  includes (toLowerCase s) word = true ->
  includes (toLowerCase (escapeUnits s)) word = true.
Proof.
  intros Hword H. apply includes_spec in H. destruct H as [p [q H]].
  apply toLowerCase_split in H. destruct H as [a [rest [-> [Ha Hrest]]]].
  apply toLowerCase_split in Hrest. destruct Hrest as [w [b [-> [Hw Hb]]]].
  rewrite !escapeUnits_append, !toLowerCase_append.
  rewrite (escapeUnits_letters w)
    by (apply lettersOnly_toLowerCase; now rewrite Hw).
  rewrite Hw. apply includes_append. apply includes_spec.
  exists EmptyString, EmptyString. cbn.
  clear. induction word as [|c word IH]; cbn; [reflexivity | now rewrite <- IH].
Qed.

Lemma includes_nonEmpty (s word : string) :
  nonEmpty word = true -> includes s word = true -> nonEmpty s = true.
Proof.
  intros Hw H. destruct s; [|reflexivity].
  now rewrite includes_empty_false in H.
Qed.

(** When a detail lookup is usable and its [parameters] is a text that
    mentions "reasoning", in whatever letter case, the model is marked
    reasoning-capable, whatever its name. *)
Theorem parameters_text_marks_reasoning
    (nts : float -> string) (name : string) (outcome : Result DetailResponse)
    (detail : json) (text : string) :
  outcome = Ok {| dr_ok := true; dr_json := Ok detail |} ->
  usableDetail nts outcome <> None ->
  prop detail "parameters" = Some (JStr text) ->
  includes (toLowerCase text) "reasoning" = true ->
  supportsReasoning (modelInfoOf nts name outcome) = true.
Proof.
  intros -> Husable Hprop Hinc.
  rewrite modelInfoOf_classification.
  assert (Hne : nonEmpty text = true).
  { rewrite <- nonEmpty_toLowerCase.
    now apply (includes_nonEmpty _ "reasoning"). }
  assert (Hps : forall mf ps,
             usableDetail nts (Ok {| dr_ok := true; dr_json := Ok detail |})
             = Some (mf, ps) -> ps = quote text).
  { unfold usableDetail. cbn [dr_ok dr_json]. rewrite Hprop.
    unfold orElse. cbn [truthy]. rewrite Hne. cbn [stringify].
    intros mf ps H.
    destruct detail; try discriminate;
      destruct (prop _ "modelfile") as [[| | | | |]|];
      try discriminate; now injection H as _ <-. }
  destruct (usableDetail nts (Ok {| dr_ok := true; dr_json := Ok detail |}))
    as [[mf ps]|]; [|congruence].
  rewrite (Hps mf ps eq_refl).
  assert (Hq : includes (toLowerCase (quote text)) "reasoning" = true).
  { unfold quote.
    change (String "034" (escapeUnits text ++ String "034" EmptyString))%string
      with (String "034" EmptyString ++ escapeUnits text
            ++ String "034" EmptyString)%string.
    rewrite !toLowerCase_append. apply includes_append.
    now apply includes_escapeUnits. }
  rewrite Hq. now rewrite orb_true_r.
Qed.

Lemma parameters_text_marks_reasoning_instance :
  let detail := JObj [("modelfile", JStr "FROM qwen3");
                      ("parameters", JStr "stop <think> REASONING on")] in
  let outcome := Ok {| dr_ok := true; dr_json := Ok detail |} in
  (usableDetail noNumberText outcome <> None
   /\ prop detail "parameters" = Some (JStr "stop <think> REASONING on")
   /\ includes (toLowerCase "stop <think> REASONING on") "reasoning" = true)
  /\ supportsReasoning (modelInfoOf noNumberText "qwen3" outcome) = true.
Proof.
  cbv zeta.
  assert (H : usableDetail noNumberText
                (Ok {| dr_ok := true;
                       dr_json := Ok (JObj [("modelfile", JStr "FROM qwen3");
                                            ("parameters",
                                             JStr "stop <think> REASONING on")]) |})
              <> None) by discriminate.
  split; [repeat split; exact H|].
  exact (parameters_text_marks_reasoning noNumberText "qwen3" _ _
           "stop <think> REASONING on" eq_refl H eq_refl eq_refl).
Defined.

(** ** The confirmation of a deletion *)

Lemma sidebarRun_snoc (events : list SidebarEvent) (ev : SidebarEvent) :
  sidebarRun (events ++ [ev]) = sidebarStep (sidebarRun events) ev.
Proof. unfold sidebarRun. now rewrite fold_left_app. Qed.

Lemma deleteClicks_snoc (events : list SidebarEvent) (ev : SidebarEvent) :
  deleteClicks (events ++ [ev]) =
  (deleteClicks events + if isDeleteClick ev then 1 else 0)%nat.
Proof.
  unfold deleteClicks. rewrite filter_app, List.length_app. cbn [filter].
  now destruct (isDeleteClick ev).
Qed.

Lemma sidebar_invariant (events : list SidebarEvent) :
  let s := sidebarRun events in
  (forall k, In k (deleteCalls s) -> In (DeleteClick k) events /\ k <> EmptyString)
  /\ (forall k, deleteTargetId s = Some k -> In (DeleteClick k) events)
  /\ (List.length (deleteCalls s) + (if modalOpen s then 1 else 0)
      <= deleteClicks events)%nat.
Proof.
  induction events as [|ev events IH] using rev_ind.
  - cbn. repeat split; try contradiction; try discriminate. lia.
  - cbv zeta in *. rewrite sidebarRun_snoc, deleteClicks_snoc.
    destruct IH as [Hcalls [Htarget Hcount]].
    set (s := sidebarRun events) in *.
    destruct ev as [sid | |]; cbn [sidebarStep isDeleteClick].
    + unfold handleDeleteClick, modalOpen in *.
      cbn [deleteCalls deleteTargetId]. split; [|split].
      * intros k Hk. destruct (Hcalls k Hk) as [Hin Hne].
        split; [apply in_or_app; now left | exact Hne].
      * intros k Hk. injection Hk as <-. apply in_or_app. right. now left.
      * destruct (deleteTargetId s); lia.
    + unfold handleConfirmDelete, modalOpen in *.
      destruct (deleteTargetId s) as [target|] eqn:Et.
      * destruct (nonEmpty target) eqn:En; cbn [deleteCalls deleteTargetId].
        -- split; [|split].
           ++ intros k Hk. apply in_app_or in Hk. destruct Hk as [Hk | [<- | []]].
              ** destruct (Hcalls k Hk) as [Hin Hne].
                 split; [apply in_or_app; now left | exact Hne].
              ** split; [apply in_or_app; left; now apply Htarget|].
                 intros ->. discriminate En.
           ++ discriminate.
           ++ rewrite List.length_app. cbn [List.length]. lia.
        -- rewrite Et. split; [|split].
           ++ intros k Hk. destruct (Hcalls k Hk) as [Hin Hne].
              split; [apply in_or_app; now left | exact Hne].
           ++ intros k Hk. apply in_or_app. left. now apply Htarget.
           ++ lia.
      * rewrite Et. split; [|split].
        -- intros k Hk. destruct (Hcalls k Hk) as [Hin Hne].
           split; [apply in_or_app; now left | exact Hne].
        -- discriminate.
        -- lia.
    + unfold handleCancelDelete, modalOpen in *.
      cbn [deleteCalls deleteTargetId]. split; [|split].
      * intros k Hk. destruct (Hcalls k Hk) as [Hin Hne].
        split; [apply in_or_app; now left | exact Hne].
      * discriminate.
      * destruct (deleteTargetId s); lia.
Qed.

(** Whatever the sequence of clicks, confirmations and cancellations,
    [onDeleteSession] is only ever called with an id whose delete
    button was clicked, never more often than such buttons were
    clicked; and a cancellation voids the pending click: a
    confirmation right after it deletes nothing. *)
Theorem deletions_are_confirmed_clicks (events : list SidebarEvent) :
  (forall k, In k (deleteCalls (sidebarRun events)) -> In (DeleteClick k) events)
  /\ (List.length (deleteCalls (sidebarRun events)) <= deleteClicks events)%nat
  /\ deleteCalls (sidebarRun (events ++ [CancelDelete; ConfirmDelete]))
     = deleteCalls (sidebarRun events).
Proof.
  pose proof (sidebar_invariant events) as H. cbv zeta in H.
  destruct H as [Hcalls [_ Hcount]]. split; [|split].
  - intros k Hk. now apply Hcalls.
  - lia.
  - unfold sidebarRun. rewrite fold_left_app. reflexivity.
Qed.

(** ** The heading of a reply *)

Lemma effortInUse_nonEmpty (config : ApiConfig) (e : string) :
  effortInUse config = Some e -> nonEmpty e = true.
Proof.
  unfold effortInUse. destruct (shouldUseReasoning config); [|discriminate].
  destruct (reasoningEffort config) as [x|]; [|discriminate].
  intros H. injection H as <-. now destruct x.
Qed.

Lemma heading_of_origin (t_you t_ai : string) (origin current : ApiConfig)
    (m : Message) :
  m_role m = "assistant" ->
  m_model m = Some (usedModel origin) ->
  m_provider m = Some (provider origin) ->
  (forall e, m_reasoningEffort m = Some e -> nonEmpty e = true) ->
  messageHeading t_you t_ai current m =
  (t_ai ++ " (" ++ providerNames (provider origin) ++ ": " ++ usedModel origin
        ++ effortSuffix (m_reasoningEffort m) ++ ")")%string.
Proof.
  intros Hr Hm Hp He. unfold messageHeading, msgProviderName.
  rewrite Hr, Hm, Hp, usedModel_nonEmpty. cbn [String.eqb].
  destruct (m_reasoningEffort m) as [e|]; cbn [effortSuffix]; [|reflexivity].
  now rewrite (He e eq_refl).
Qed.

(** The heading of a reply names the provider and the model of the
    configuration that produced it, with the effort that configuration
    had in use - whatever the configuration is when the message is
    drawn.  The heading of an error message does the same, without an
    effort. *)
Theorem heading_names_the_origin
    (t_you t_ai t_error : string) (origin current : ApiConfig)
    (startTime endTime catchTime : Z) (outcome : Result HttpResponse) :
  (forall m,
      receive origin startTime endTime outcome = Ok m ->
      messageHeading t_you t_ai current m =
      (t_ai ++ " (" ++ providerNames (provider origin) ++ ": "
            ++ usedModel origin ++ effortSuffix (effortInUse origin) ++ ")")%string)
  /\ (forall e,
        messageHeading t_you t_ai current (errorMessage origin t_error e catchTime) =
        (t_ai ++ " (" ++ providerNames (provider origin) ++ ": "
              ++ usedModel origin ++ ")")%string).
Proof.
  split.
  - intros m H. apply receive_Ok_fields in H.
    destruct H as [Hr [Hm [Hp [He _]]]].
    rewrite <- He. apply heading_of_origin; try assumption.
    intros e Hme. rewrite He in Hme. now apply (effortInUse_nonEmpty origin).
  - intros e.
    rewrite (heading_of_origin t_you t_ai origin current
               (errorMessage origin t_error e catchTime));
      try reflexivity. discriminate.
Qed.

Lemma heading_names_the_origin_instance :
  receive sampleConfig 0 2000 (Ok sampleReply) =
  Ok {| m_role := "assistant"; m_content := JStr "hi";
        m_model := Some "deepseek-r1:8b"; m_provider := Some ollama;
        m_reasoningEffort := Some "high";
        m_tokensPerSecond := Some (Exact 10); m_timestamp := Some 2000%Z |}
  /\ messageHeading "You" "AI" sampleLmstudio
       {| m_role := "assistant"; m_content := JStr "hi";
          m_model := Some "deepseek-r1:8b"; m_provider := Some ollama;
          m_reasoningEffort := Some "high";
          m_tokensPerSecond := Some (Exact 10); m_timestamp := Some 2000%Z |}
     = "AI (Ollama: deepseek-r1:8b/high)".
Proof.
  split; [reflexivity|].
  exact (proj1 (heading_names_the_origin "You" "AI" "Error: " sampleConfig
                  sampleLmstudio 0 2000 2001 (Ok sampleReply)) _ eq_refl).
Defined.

(** ** A reply and the conversation shown *)

Lemma orElse_truthy (x : option json) (d : json) :
  truthy (Some d) = true -> truthy (Some (orElse x d)) = true.
Proof.
  intros Hd. unfold orElse. destruct x as [v|]; [|exact Hd].
  destruct (truthy (Some v)) eqn:E; [exact E | exact Hd].
Qed.

Lemma receive_Ok_body (config : ApiConfig) (startTime endTime : Z)
    (outcome : Result HttpResponse) (m : Message) :
  receive config startTime endTime outcome = Ok m ->
  exists res data,
    outcome = Ok res /\ res_ok res = true /\ res_json res = Ok data /\
    data <> JNull.
Proof.
  unfold receive. destruct outcome as [res|e]; cbn [bind]; [|discriminate].
  destruct (res_ok res) eqn:Hok; cbn [negb].
  - destruct (res_json res) as [data|e] eqn:Hjson; cbn [bind]; [|discriminate].
    intros H. exists res, data.
    split; [reflexivity|]. split; [exact Hok|]. split; [exact Hjson|].
    intros Hnull. rewrite Hnull in H. unfold aiMsg in H.
    destruct (provider config); cbn in H; discriminate.
  - destruct (res_text res); cbn [bind]; discriminate.
Qed.

(** The content of a reply is the content the body carries
    ([message.content] for ollama, [choices[0].message.content]
    otherwise) when that is truthy, and the placeholder otherwise; in
    either case it is truthy, and so never the empty text. *)
Theorem reply_content_not_empty
    (config : ApiConfig) (startTime endTime : Z)
    (outcome : Result HttpResponse) (m : Message) :
  receive config startTime endTime outcome = Ok m ->
  exists res data,
    outcome = Ok res /\ res_json res = Ok data /\ data <> JNull
    /\ m_content m =
       match contentField config data with
       | Some carried =>
           if truthy (Some carried) then carried else JStr "(no response)"
       | None => JStr "(no response)"
       end
    /\ truthy (Some (m_content m)) = true
    /\ m_content m <> JStr EmptyString.
Proof.
  intros H.
  destruct (receive_Ok_body config startTime endTime outcome m H)
    as [res [data [-> [Hok [Hjson Hd]]]]].
  rewrite (receive_ok config startTime endTime res data Hok Hjson Hd) in H.
  injection H as <-. cbn [m_content].
  exists res, data. split; [reflexivity|]. split; [exact Hjson|].
  split; [exact Hd|].
  split; [unfold orElse; now destruct (contentField config data)|].
  assert (Ht : truthy (Some (orElse (contentField config data)
                               (JStr "(no response)"))) = true)
    by now apply orElse_truthy.
  split; [exact Ht|]. intros Hc. rewrite Hc in Ht. discriminate.
Qed.

Lemma reply_content_not_empty_instance :
  receive sampleConfig 0 2000 (Ok sampleEmptyReply) = Ok samplePlaceholder
  /\ exists res data,
       Ok sampleEmptyReply = Ok res /\ res_json res = Ok data /\ data <> JNull
       /\ m_content samplePlaceholder =
          match contentField sampleConfig data with
          | Some carried =>
              if truthy (Some carried) then carried else JStr "(no response)"
          | None => JStr "(no response)"
          end
       /\ truthy (Some (m_content samplePlaceholder)) = true
       /\ m_content samplePlaceholder <> JStr EmptyString.
Proof.
  split; [reflexivity|].
  exact (reply_content_not_empty sampleConfig 0 2000 (Ok sampleEmptyReply)
           samplePlaceholder eq_refl).
Defined.

(** A reply is appended to the conversation shown when it arrives, not
    to the one it was asked in.  If the user has loaded another session
    meanwhile, the reply follows the messages of that session, under
    its id; after "new chat" the reply is the only message, and the
    session is saved under the fallback title. *)
Theorem reply_joins_the_conversation_shown
    (config : ApiConfig) (t_error : string)
    (startTime endTime catchTime now now1 now2 : Z)
    (outcome : Result HttpResponse)
    (db : SessionDb) (v : ChatView) (sid : string) (session : ChatSession) :
  getRecord sid db = Some session ->
  let settle := sendMessage_settle config t_error startTime endTime catchTime
                  outcome in
  let loaded := loadSession sid db v in
  let fresh := createNewChat now v in
  (exists reply,
      messages (settle (cv_chat loaded)) = cs_messages session ++ [reply]
      /\ m_role reply = "assistant"
      /\ cv_currentSessionId loaded = id session)
  /\ (exists reply,
        messages (settle (cv_chat fresh)) = [reply]
        /\ m_role reply = "assistant"
        /\ sessionToSave (messages (settle (cv_chat fresh)))
             (cv_currentSessionId fresh) now1 now2
           = Ok (Some {| id := newSessionId now; title := JStr "New Chat";
                         cs_messages := [reply];
                         createdAt := now1; updatedAt := now2 |})).
Proof.
  intros Hget. cbv zeta. unfold loadSession. rewrite Hget.
  cbn [cv_chat cv_currentSessionId createNewChat].
  unfold sendMessage_settle.
  destruct (receive config startTime endTime outcome) as [m|e] eqn:E.
  - apply receive_Ok_fields in E. destruct E as [Hr _]. split.
    + exists m. now repeat split.
    + exists m. cbn. split; [reflexivity|]. split; [exact Hr|].
      unfold sessionToSave, sessionTitle. cbn [find]. rewrite Hr. reflexivity.
  - split.
    + eexists. now repeat split.
    + eexists. cbn. split; [reflexivity|]. split; reflexivity.
Qed.

Lemma reply_joins_the_conversation_shown_instance :
  let v := {| cv_chat := {| messages := [userSays "weather" 3000];
                            input := EmptyString; loading := true |};
              cv_currentSessionId := "session-3000";
              cv_chatSessions := [sampleOther; sampleSaved] |} in
  getRecord "session-1000" [sampleSaved; sampleOther] = Some sampleSaved
  /\ exists reply,
       messages (sendMessage_settle sampleConfig "Error: " 3000 3500 3501
                   (Ok sampleReply)
                   (cv_chat (loadSession "session-1000"
                               [sampleSaved; sampleOther] v)))
       = cs_messages sampleSaved ++ [reply]
       /\ m_role reply = "assistant"
       /\ cv_currentSessionId (loadSession "session-1000"
                                 [sampleSaved; sampleOther] v) = id sampleSaved.
Proof.
  cbv zeta. split; [reflexivity|].
  exact (proj1 (reply_joins_the_conversation_shown sampleConfig "Error: "
                  3000 3500 3501 4000 4001 4002 (Ok sampleReply)
                  [sampleSaved; sampleOther] _ "session-1000" sampleSaved
                  eq_refl)).
Defined.
